(** * CUHK course database: merged-row reconstruction and schedule parsing

    A shallow embedding of the parsing and reconstruction core of
    [save.py]: [fill_empty_class_codes], [sanitize_period],
    [convert_to_sql_period] and the three closures of
    [extract_time_and_day] ([extract_day], [extract_time],
    [extract_start_end_times]).

    Python strings are sequences of Unicode code points, modelled as
    [list N]; a cell of a DataFrame is [option (list N)], where [None]
    stands for the missing value ([None] / [NaN], whatever [pd.isna]
    accepts).  Code that can raise is written in an error monad, so that
    "does not raise" is a statement one can prove. *)

From Stdlib Require Import ZArith NArith Bool Lia String Ascii.
From stdpp Require Import base option list.

Set Default Proof Using "Type".

(** ** Text *)

Abbreviation str := (list N) (only parsing).
Abbreviation cell := (option (list N)) (only parsing).

(** ASCII literal to code points. *)
Definition text (s : string) : list N :=
  N_of_ascii <$> list_ascii_of_string s.

Module Char.

(** [[a-zA-Z]] *)
Definition is_ascii_alpha (c : N) : bool :=
  ((65 <=? c) && (c <=? 90) || (97 <=? c) && (c <=? 122))%N.

(** [[0-9]] *)
Definition is_ascii_digit (c : N) : bool := ((48 <=? c) && (c <=? 57))%N.

(** [[a-zA-Z0-9_]] *)
Definition is_word (c : N) : bool :=
  is_ascii_alpha c || is_ascii_digit c || (c =? 95)%N.

(** The characters for which [str.isspace] holds, which are also the
    ones [\s] matches in a [str] pattern. *)
Definition whitespace : list N :=
  [9; 10; 11; 12; 13; 28; 29; 30; 31; 32; 133; 160; 5760;
   8192; 8193; 8194; 8195; 8196; 8197; 8198; 8199; 8200; 8201; 8202;
   8232; 8233; 8239; 8287; 12288]%N.

Definition is_space (c : N) : bool := existsb (N.eqb c) whitespace.

(** The zero of every run of ten Unicode decimal digits (category Nd,
    Unicode 14): [\d] matches them, and [int] reads them. *)
Definition decimal_zeros : list N :=
  [48; 1632; 1776; 1984; 2406; 2534; 2662; 2790; 2918; 3046; 3174; 3302;
   3430; 3558; 3664; 3792; 3872; 4160; 4240; 6112; 6160; 6470; 6608; 6784;
   6800; 6992; 7088; 7232; 7248; 42528; 43216; 43264; 43472; 43504; 43600;
   44016; 65296; 66720; 68912; 69734; 69872; 69942; 70096; 70384; 70736;
   70864; 71248; 71360; 71472; 71904; 72016; 72784; 73040; 73120; 92768;
   92864; 93008; 120782; 120792; 120802; 120812; 120822; 123200; 123632;
   125264; 130032]%N.

(** Decimal value of a character, when it is a decimal digit. *)
Definition to_decimal (c : N) : option Z :=
  (λ z, Z.of_N (c - z)) <$>
    find (λ z, (z <=? c) && (c <? z + 10))%N decimal_zeros.

(** [\d] *)
Definition is_digit (c : N) : bool :=
  match to_decimal c with Some _ => true | None => false end.

(** [[\-–—]]: hyphen-minus, en dash U+2013, em dash U+2014. *)
Definition is_dash (c : N) : bool :=
  ((c =? 45) || (c =? 8211) || (c =? 8212))%N.

(** [str.lower] on one character.  The program lowers only text
    matched by [[a-zA-Z]{1,3}] or by [(am|pm|AM|PM)], where lowering is
    the ASCII one. *)
Definition lower (c : N) : N :=
  if ((65 <=? c) && (c <=? 90))%N then (c + 32)%N else c.

End Char.

Definition py_lower (s : list N) : list N := Char.lower <$> s.

(** ** Exceptions *)

Inductive exn := ValueError | IndexError | KeyError.

Inductive result (A : Type) : Type :=
| Ok (a : A)
| Raise (e : exn).
Arguments Ok {A} a.
Arguments Raise {A} e.

#[global] Instance result_ret : MRet result := λ A a, Ok a.
#[global] Instance result_bind : MBind result := λ A B f m,
  match m with Ok a => f a | Raise e => Raise e end.

(** [l[i]] *)
Definition py_index {A} (l : list A) (i : nat) : result A :=
  match l !! i with Some x => Ok x | None => Raise IndexError end.

(** [int(s)] on the text of a digit group.  [int] also accepts signs,
    blanks and underscores; the model raises on those, which the program
    never passes. *)
Definition py_int (s : list N) : result Z :=
  match s with
  | [] => Raise ValueError
  | _ => foldl (λ acc c, a ← acc;
                  match Char.to_decimal c with
                  | Some d => Ok (a * 10 + d)%Z
                  | None => Raise ValueError
                  end) (Ok 0%Z) s
  end.

(** ** Regular expressions

    Each pattern of the source is a matcher that is tried at the start
    of its argument; [Re.search], [Re.findall] and [Re.split] move it
    over the text from left to right the way the [re] module does. *)

Module Re.

(** Greedy [p{0,n}]: the matched text and what follows it. *)
Fixpoint span_upto (p : N → bool) (n : nat) (s : list N)
  : list N * list N :=
  match n, s with
  | S k, c :: s' =>
      if p c then let '(a, b) := span_upto p k s' in (c :: a, b)
      else ([], s)
  | _, _ => ([], s)
  end.

(** Greedy [p*]. *)
Fixpoint span (p : N → bool) (s : list N) : list N * list N :=
  match s with
  | c :: s' =>
      if p c then let '(a, b) := span p s' in (c :: a, b) else ([], s)
  | [] => ([], s)
  end.

(** [(am|pm|AM|PM)?]: the group, if it took part, and the rest. *)
Definition meridiem (s : list N) : option (list N) * list N :=
  match s with
  | a :: m :: rest =>
      if (((a =? 97) || (a =? 112)) && (m =? 109)
          || ((a =? 65) || (a =? 80)) && (m =? 77))%N
      then (Some [a; m], rest) else (None, s)
  | _ => (None, s)
  end.

(** [(\d{2})?] *)
Definition two_digits (s : list N) : option (list N) * list N :=
  match s with
  | a :: b :: rest =>
      if Char.is_digit a && Char.is_digit b then (Some [a; b], rest)
      else (None, s)
  | _ => (None, s)
  end.

(** One character of a class, optionally: [[...]?]. *)
Definition opt_char (p : N → bool) (s : list N) : list N * list N :=
  match s with
  | c :: rest => if p c then ([c], rest) else ([], s)
  | [] => ([], s)
  end.

(** [[a-zA-Z]{k}\s] at the start of [s], giving the letters. *)
Definition letters_then_space (k : nat) (s : list N) : option (list N) :=
  let g := take k s in
  if bool_decide (length g = k) && forallb Char.is_ascii_alpha g
     && from_option Char.is_space false (s !! k)
  then Some g else None.

(** [^([a-zA-Z]{1,3})\s]: group 1.  The repetition is greedy, so three
    letters are tried first, then two, then one. *)
Definition day_abbr (s : list N) : option (list N) :=
  match letters_then_space 3 s with
  | Some g => Some g
  | None =>
      match letters_then_space 2 s with
      | Some g => Some g
      | None => letters_then_space 1 s
      end
  end.

(** [(\d{1,2}):?(\d{2})?\s*(am|pm|AM|PM)?] at the start of [s]: groups
    1, 2 and 3.  Everything after group 1 can match the empty text, so
    the first, greedy, choice at each step is never undone. *)
Definition time_groups (s : list N)
  : option (list N * option (list N) * option (list N)) :=
  let '(g1, s1) := span_upto Char.is_digit 2 s in
  match g1 with
  | [] => None
  | _ =>
      let '(_, s2) := opt_char (N.eqb 58) s1 in
      let '(g2, s3) := two_digits s2 in
      let '(_, s4) := span Char.is_space s3 in
      let '(g3, _) := meridiem s4 in
      Some (g1, g2, g3)
  end.

(** [(\d{1,2}[:.]?\d{0,2}\s*(am|pm|AM|PM)?)] at the start of [s]:
    group 1 (the whole match) and group 2, which [findall] reports as
    the empty text when it took no part. *)
Definition time_pattern (s : list N) : option (list N * list N) :=
  let '(d1, s1) := span_upto Char.is_digit 2 s in
  match d1 with
  | [] => None
  | _ =>
      let '(sep, s2) := opt_char (λ c, (c =? 58) || (c =? 46))%N s1 in
      let '(d2, s3) := span_upto Char.is_digit 2 s2 in
      let '(ws, s4) := span Char.is_space s3 in
      let '(ap, _) := meridiem s4 in
      let ap := default [] ap in
      Some (d1 ++ sep ++ d2 ++ ws ++ ap, ap)
  end.

(** [\s*[\-–—]\s*] at the start of [s]: the length of the match.  A
    dash is no blank, so giving back blanks of the first [\s*] never
    helps. *)
Definition delimiter (s : list N) : option nat :=
  let '(w1, s1) := span Char.is_space s in
  match s1 with
  | c :: s2 =>
      if Char.is_dash c
      then let '(w2, _) := span Char.is_space s2 in
           Some (length w1 + 1 + length w2)
      else None
  | [] => None
  end.

(** [re.search]: the leftmost position where the matcher succeeds. *)
Fixpoint search {A} (m : list N → option A) (s : list N) : option A :=
  match m s with
  | Some r => Some r
  | None => match s with [] => None | _ :: s' => search m s' end
  end.

(** [re.findall] for the time pattern: the matches from left to
    right, none overlapping another; [skip] counts the characters of
    the current match still to pass over. *)
Fixpoint findall_go (skip : nat) (s : list N) : list (list N * list N) :=
  match s with
  | [] => []
  | _ :: s' =>
      match skip with
      | S k => findall_go k s'
      | O =>
          match time_pattern s with
          | Some g => g :: findall_go (pred (length g.1)) s'
          | None => findall_go 0 s'
          end
      end
  end.

Definition findall (s : list N) : list (list N * list N) := findall_go 0 s.

(** [re.split] on the delimiter: [piece] is the text since the last
    match, [skip] as above. *)
Fixpoint split_go (skip : nat) (piece : list N) (s : list N)
  : list (list N) :=
  match s with
  | [] => [piece]
  | c :: s' =>
      match skip with
      | S k => split_go k piece s'
      | O =>
          match delimiter s with
          | Some n => piece :: split_go (pred n) [] s'
          | None => split_go 0 (piece ++ [c]) s'
          end
      end
  end.

Definition split (s : list N) : list (list N) := split_go 0 [] s.

(** [re.sub(r'\s+', ' ', s)]; [in_run] tells that the previous
    character was a blank, already replaced. *)
Fixpoint collapse_spaces (in_run : bool) (s : list N) : list N :=
  match s with
  | [] => []
  | c :: s' =>
      if Char.is_space c
      then (if in_run then collapse_spaces true s'
            else 32%N :: collapse_spaces true s')
      else c :: collapse_spaces false s'
  end.

End Re.

(** [s.strip()] *)
Definition py_strip (s : list N) : list N :=
  reverse (Re.span Char.is_space (reverse (Re.span Char.is_space s).2)).2.

(** ** Period Normalizer *)

(** [pd.isna(x) or x == ''] *)
Definition isna_or_empty (x : cell) : bool :=
  match x with
  | None => true
  | Some [] => true
  | Some (_ :: _) => false
  end.

(** [sanitize_period] *)
Definition sanitize_period (period_str : cell) : result str :=
  match period_str with
  | None | Some [] => Ok []
  | Some s => Ok (Re.collapse_spaces false (py_strip s))
  end.

(** [[\.\/\s\-\:]] *)
Definition is_sql_separator (c : N) : bool :=
  ((c =? 46) || (c =? 47) || Char.is_space c || (c =? 45) || (c =? 58))%N.

(** [convert_to_sql_period]; [None] is Python's [None]. *)
Definition convert_to_sql_period (period_str : cell) : result cell :=
  match period_str with
  | None | Some [] => Ok None
  | Some s =>
      let sql_period := (λ c, if is_sql_separator c then 95%N else c) <$> s in
      let sql_period := List.filter Char.is_word sql_period in
      match sql_period with
      | c :: _ =>
          if Char.is_ascii_digit c
          then Ok (Some (text "p_" ++ sql_period))
          else Ok (Some sql_period)
      | [] => Ok (Some sql_period)
      end
  end.

(** ** Schedule Field Parser *)

(** The dictionary [day_mapping], in insertion order (the order in which
    a [for key in day_mapping] loop visits it). *)
Definition day_mapping : list (str * Z) :=
  [ (text "mo", 1); (text "mon", 1); (text "monday", 1); (text "m", 1);
    (text "tu", 2); (text "tue", 2); (text "tues", 2); (text "tuesday", 2);
    (text "t", 2);
    (text "we", 3); (text "wed", 3); (text "wednesday", 3); (text "w", 3);
    (text "th", 4); (text "thu", 4); (text "thur", 4); (text "thurs", 4);
    (text "thursday", 4);
    (text "fr", 5); (text "fri", 5); (text "friday", 5); (text "f", 5);
    (text "sa", 6); (text "sat", 6); (text "saturday", 6); (text "s", 6);
    (text "su", 7); (text "sun", 7); (text "sunday", 7) ]%Z.

Definition str_eqb (a b : str) : bool := bool_decide (a = b).

(** [d.get(k)]-like lookup, used for [k in d] and [d[k]]. *)
Definition dict_lookup (d : list (str * Z)) (k : str) : option Z :=
  snd <$> find (λ kv, str_eqb kv.1 k) d.

(** [d[k]] *)
Definition dict_getitem (d : list (str * Z)) (k : str) : result Z :=
  match dict_lookup d k with Some v => Ok v | None => Raise KeyError end.

(** [key.startswith(p)] *)
Definition startswith (key p : str) : bool := str_eqb (take (length p) key) p.

(** [extract_day] *)
Definition extract_day (period_str : cell) : result (option Z) :=
  match period_str with
  | None | Some [] => Ok None
  | Some s =>
      match Re.day_abbr s with
      | Some g =>
          let day_abbr := py_lower g in
          match dict_lookup day_mapping day_abbr with
          | Some _ => v ← dict_getitem day_mapping day_abbr; Ok (Some v)
          | None =>
              match find (λ kv, startswith kv.1 day_abbr) day_mapping with
              | Some kv => v ← dict_getitem day_mapping kv.1; Ok (Some v)
              | None => Ok None
              end
          end
      | None => Ok None
      end
  end.

(** The 12 to 24 hour step of [extract_time]. *)
Definition to_24h (ampm : option str) (hour : Z) : Z :=
  if bool_decide (ampm = Some (text "pm")) && (hour <? 12)%Z then (hour + 12)%Z
  else if bool_decide (ampm = Some (text "am")) && (hour =? 12)%Z then 0%Z
  else hour.

(** [extract_time] *)
Definition extract_time (time_str : cell) : result (option Z) :=
  match time_str with
  | None | Some [] => Ok None
  | Some s =>
      match Re.search Re.time_groups s with
      | None => Ok None
      | Some (g1, g2, g3) =>
          hour ← py_int g1;
          minute ← match g2 with
                   | Some (c :: m) => py_int (c :: m)
                   | _ => Ok 0%Z
                   end;
          let ampm := py_lower <$> g3 in
          let hour := to_24h ampm hour in
          Ok (Some (hour * 100 + minute)%Z)
      end
  end.

(** [re.search(r'\d{1,2}[:.]?\d{0,2}\s*(am|pm|AM|PM)?', part)] as a truth
    value. *)
Definition has_time_pattern (part : str) : bool :=
  match Re.search Re.time_pattern part with Some _ => true | None => false end.

(** The first strategy of [extract_start_end_times]: the parts between
    dashes that hold a time, when the split gives two parts or more
    ([time_parts] stays unset otherwise, and is then not looked at). *)
Definition split_time_parts (s : str) : list str :=
  let parts := Re.split s in
  if bool_decide (2 ≤ length parts)
  then List.filter has_time_pattern parts
  else [].

(** [extract_start_end_times] *)
Definition extract_start_end_times (period_str : cell)
  : result (option Z * option Z) :=
  match period_str with
  | None | Some [] => Ok (None, None)
  | Some s =>
      let time_parts := split_time_parts s in
      if bool_decide (2 ≤ length time_parts)
      then
        p0 ← py_index time_parts 0;
        start_time ← extract_time (Some p0);
        p1 ← py_index time_parts 1;
        end_time ← extract_time (Some p1);
        Ok (start_time, end_time)
      else
        let times := Re.findall s in
        if bool_decide (2 ≤ length times)
        then
          t0 ← py_index times 0;
          start_time ← extract_time (Some t0.1);
          t1 ← py_index times 1;
          end_time ← extract_time (Some t1.1);
          Ok (start_time, end_time)
        else Ok (None, None)
  end.

(** The three values [extract_time_and_day] computes from one cell of
    the period column, for the columns [day_num], [start_time] and
    [end_time]. *)
Record ParsedSchedule := mkParsed {
  day_num : option Z;
  start_time : option Z;
  end_time : option Z
}.

Definition parse (period : cell) : result ParsedSchedule :=
  day ← extract_day period;
  times ← extract_start_end_times period;
  Ok (mkParsed day times.1 times.2).

(** ** Group Reconstructor *)

Abbreviation row := (list (option (list N))) (only parsing).

(** A DataFrame: its column labels and its rows, every row with one cell
    per column.  Columns are addressed by position. *)
Record DataFrame := mkDF {
  columns : list str;
  rows : list row
}.

(** Every row has one cell per column. *)
Definition rectangular (df : DataFrame) : Prop :=
  Forall (λ r : row, length r = length (columns df)) (rows df).

(** The tables on which a position stands for a label: the labels are
    distinct, and every row has one cell per column.  The source reads
    and writes cells by label ([df.iloc[i][col]], [df.at[i, col]],
    [prev_row[col]]); with a label that occurs twice [df.iloc[i][col]]
    is a Series, and the test [pd.isna(...) or ... == ''] of the
    grouping branch raises [ValueError]. *)
Definition wf_df (df : DataFrame) : Prop :=
  NoDup (columns df) ∧ rectangular df.

(** The inner loop [for col in df.columns] of the grouping branch: every
    cell of the current row that is empty takes the cell of [prev_row]. *)
Definition copy_empty_cells (ncols : nat) (prev_row cur : row) : row :=
  foldl (λ (r : row) col,
           if isna_or_empty (r !!! col) then <[col := prev_row !!! col]> r
           else r)
        cur (seq 0 ncols).

(** What happens to a row whose class code is empty when there is a
    previous row: the class code is set, then the empty cells copied. *)
Definition fill_from (ncols g : nat) (prev_row cur : row) : row :=
  copy_empty_cells ncols prev_row (<[g := prev_row !!! g]> cur).

(** One iteration of [for i in range(len(df))], giving row [i] as it
    stands afterwards, which is also the next [prev_row]. *)
Definition fill_step (ncols g : nat) (prev_row : option row) (cur : row)
  : row :=
  if isna_or_empty (cur !!! g) then
    match prev_row with
    | Some p => fill_from ncols g p cur
    | None => cur
    end
  else cur.

Fixpoint fill_rows (ncols g : nat) (prev_row : option row) (rs : list row)
  : list row :=
  match rs with
  | [] => []
  | r :: rest =>
      let r' := fill_step ncols g prev_row r in
      r' :: fill_rows ncols g (Some r') rest
  end.

(** [s.replace('', np.nan)] on a column. *)
Definition replace_empty (col : list cell) : list cell :=
  (λ v, if isna_or_empty v then None else v) <$> col.

(** [s.fillna(method='ffill')] on a column; [last] is the last valid
    value seen, if any. *)
Fixpoint ffill (last : cell) (col : list cell) : list cell :=
  match col with
  | [] => []
  | None :: rest => last :: ffill last rest
  | Some v :: rest => Some v :: ffill (Some v) rest
  end.

(** [df[col]] and [df[col] = vals]. *)
Definition get_col (c : nat) (rs : list row) : list cell :=
  (λ r : row, r !!! c) <$> rs.

Definition set_col (c : nat) (vals : list cell) (rs : list row) : list row :=
  zip_with (λ (r : row) v, <[c := v]> r) rs vals.

(** [s.replace('', np.nan).fillna(method='ffill')] on a column. *)
Definition ffill_column (col : list cell) : list cell :=
  ffill None (replace_empty col).

(** The fallback branch: [for col in df.columns: df[col] = ...]. *)
Definition ffill_columns (ncols : nat) (rs : list row) : list row :=
  foldl (λ rs c, set_col c (ffill_column (get_col c rs)) rs) rs (seq 0 ncols).

(** [fill_empty_class_codes], from the test [if class_code_col:] on,
    for a table with distinct labels ([wf_df]).  [class_code_col] is the
    position of the column the search by name or the user's answer has
    settled on, [None] when there is none.  Cells are addressed by
    position, which for distinct labels is what the source's addressing
    by label comes to; the [ValueError] the grouping branch raises on a
    repeated label is outside this function, and the properties of that
    branch are stated for [wf_df] tables. *)
Definition fill_empty_class_codes (class_code_col : option nat)
    (df : DataFrame) : DataFrame :=
  let ncols := length (columns df) in
  match class_code_col with
  | Some g => mkDF (columns df) (fill_rows ncols g None (rows df))
  | None => mkDF (columns df) (ffill_columns ncols (rows df))
  end.

(** ** Reference formulations

    The token deriver and the day extractor as the specification words
    them, to be compared with the functions above. *)

(** Characters of [is_sep] become underscores; of the others, those
    outside [[A-Za-z0-9_]] are dropped. *)
Fixpoint underscore_and_strip (is_sep : N → bool) (s : str) : str :=
  match s with
  | [] => []
  | c :: s' =>
      if is_sep c then 95%N :: underscore_and_strip is_sep s'
      else if Char.is_word c then c :: underscore_and_strip is_sep s'
      else underscore_and_strip is_sep s'
  end.

(** The deriver for a given set of separators: a token that starts with
    a digit gets the prefix [p_]; the empty text and the missing value
    give no token. *)
Definition derive_token_with (is_sep : N → bool) (x : cell) : cell :=
  match x with
  | None | Some [] => None
  | Some s =>
      let tok := underscore_and_strip is_sep s in
      match tok with
      | c :: _ => if Char.is_ascii_digit c then Some (text "p_" ++ tok)
                  else Some tok
      | [] => Some tok
      end
  end.

(** Period, slash, space, hyphen, colon. *)
Definition is_listed_separator (c : N) : bool :=
  ((c =? 46) || (c =? 47) || (c =? 32) || (c =? 45) || (c =? 58))%N.

(** The deriver with exactly the five listed separators. *)
Definition derive_token_spec : cell → cell :=
  derive_token_with is_listed_separator.

(** The keys of the day lexicon. *)
Definition lexicon_keys : list str := day_mapping.*1.

(** Day extraction by exact lookup alone, without the loop over the keys
    that start with the token. *)
Definition exact_day (x : cell) : option Z :=
  match x with
  | None | Some [] => None
  | Some s => g ← Re.day_abbr s; dict_lookup day_mapping (py_lower g)
  end.

(** The leading run of letters of a text. *)
Definition leading_letters (s : str) : str := (Re.span Char.is_ascii_alpha s).1.

(** The current row with each of its empty cells replaced by the cell of
    [prev_row] in the same column. *)
Definition merge_rows (prev_row cur : row) : row :=
  zip_with (λ p c : cell, if isna_or_empty c then p else c) prev_row cur.

(** "The last preceding row whose grouping cell was non-empty as read",
    among the rows [before] a given one. *)
Definition last_coded_row (g : nat) (before : list row) : option row :=
  last (List.filter (λ r : row, negb (isna_or_empty (r !!! g))) before).

(** The reading of the grouping branch in which a row with an empty
    grouping cell takes its empty cells from the last preceding row
    whose grouping cell was non-empty as read, as that row was read. *)
Definition copies_from_last_coded_row (g : nat) (input output : list row)
  : Prop :=
  ∀ (i : nat) (r src out_r : row),
    input !! i = Some r → isna_or_empty (r !!! g) = true →
    last_coded_row g (take i input) = Some src →
    output !! i = Some out_r →
    ∀ c : nat, isna_or_empty (r !!! c) = true → out_r !!! c = src !!! c.

(** ** Sample tables *)

(** The table of the specification's group-fill example. *)
Definition two_groups : DataFrame :=
  mkDF [text "code"; text "x"]
       [ [Some (text "A"); Some (text "1")];
         [Some []; Some []];
         [Some (text "B"); Some (text "2")] ].

(** One group of three rows: the leader has no [x], the second row
    brings one, the third has none. *)
Definition late_value : DataFrame :=
  mkDF [text "code"; text "x"]
       [ [Some (text "A"); Some []];
         [Some []; Some (text "1")];
         [Some []; Some []] ].

(** ** Auxiliary notions *)

(** One of the four spellings of the meridiem. *)
Definition is_meridiem (g : str) : Prop :=
  g = text "am" ∨ g = text "pm" ∨ g = text "AM" ∨ g = text "PM".

(** Cleaned text holds no blank but the space. *)
Definition only_plain_spaces (s : str) : Prop :=
  Forall (λ c, Char.is_space c = true → c = 32%N) s.

(** The shape the loop keeps: the previous row, when there is one, is as
    long as the rows are. *)
Definition prev_fits (n : nat) (prev_row : option row) : Prop :=
  ∀ p, prev_row = Some p → length p = n.

(** The other invariant of the loop: the previous row carries the class
    code of the last row, among those [before], whose class code was
    not empty as read. *)
Definition carries_code (g : nat) (before : list row)
    (prev_row : option row) : Prop :=
  ∀ src : row, last_coded_row g before = Some src →
    ∃ p : row, prev_row = Some p ∧ p !!! g = src !!! g.

(** Settles [wf_df] and [rectangular] for a table given in full. *)
Ltac solve_wf :=
  repeat match goal with
         | |- wf_df _ => split
         | |- NoDup _ => apply (bool_decide_unpack _); by vm_compute
         | |- rectangular _ => unfold rectangular; simpl; by repeat constructor
         end.

(** Reduces a bind whose first computation is known. *)
Ltac unbind := unfold mbind, result_bind; cbv beta iota.

(** ** Column lookup

    The searches over [df.columns] that open [fill_empty_class_codes],
    [convert_period_for_sql] and [extract_time_and_day].  A label is a
    string when the table had a header row that fits, and an integer
    when [pd.DataFrame(rows)] numbered the columns.  The searches give
    the position at which the loop stops; the source keeps the label
    found there. *)

Inductive label :=
| LStr (s : list N)
| LInt (n : Z).

Inductive lookup_exn := AttributeError | EOFError.

Inductive outcome (A : Type) : Type :=
| Returns (a : A)
| Raises (e : lookup_exn).
Arguments Returns {A} a.
Arguments Raises {A} e.

(** [p in t], for strings. *)
Fixpoint contains (t p : str) : bool :=
  startswith t p ||
  match t with
  | [] => false
  | _ :: t' => contains t' p
  end.

(** [potential_names] of [fill_empty_class_codes]. *)
Definition potential_names : list str :=
  [ text "class code"; text "classcode"; text "class_code"; text "code";
    text "course code"; text "coursecode" ].

(** What [int(input(...))] comes to: a number, a [ValueError] from [int]
    (which the source catches), or an [EOFError] from [input] (which it
    does not). *)
Inductive answer :=
| Number (z : Z)
| NotANumber
| NoInput.

(** Truth value of a label, as [if class_code_col:] takes it. *)
Definition truthy (l : label) : bool :=
  match l with
  | LStr [] => false
  | LStr (_ :: _) => true
  | LInt n => negb (n =? 0)%Z
  end.

Section ColumnLookup.

(** [str.lower] on a whole label, whatever Unicode makes of it. *)
Variable lower : list N → list N.

(** [for col in df.columns: if test(col.lower()): ...; break], from
    position [pos] on.  An integer label has no [lower]. *)
Fixpoint first_matching (test : str → bool) (pos : nat) (cols : list label)
  : outcome (option nat) :=
  match cols with
  | [] => Returns None
  | LInt _ :: _ => Raises AttributeError
  | LStr s :: rest =>
      if test (lower s) then Returns (Some pos)
      else first_matching test (S pos) rest
  end.

(** Lines 81 to 84 of [fill_empty_class_codes]. *)
Definition find_class_code_col (cols : list label) : outcome (option nat) :=
  first_matching (λ low, existsb (contains low) potential_names) 0 cols.

(** The search for the period column of [convert_period_for_sql] and
    [extract_time_and_day]. *)
Definition find_period_col (cols : list label) : outcome (option nat) :=
  first_matching (λ low, contains low (text "period")) 0 cols.

(** [fill_empty_class_codes] up to the test [if class_code_col:]: the
    position of the class code column the function goes on with, [None]
    when it goes on to forward-fill every column. *)
Definition resolve_class_code_col (ans : answer) (cols : list label)
  : outcome (option nat) :=
  match find_class_code_col cols with
  | Raises e => Raises e
  | Returns found =>
      let chosen :=
        match found with
        | Some k => Returns (Some k)
        | None =>
            if bool_decide (0 < length cols) then
              match ans with
              | Number col_idx =>
                  if bool_decide (0 ≤ col_idx < Z.of_nat (length cols))%Z
                  then Returns (Some (Z.to_nat col_idx))
                  else Returns None
              | NotANumber => Returns None
              | NoInput => Raises EOFError
              end
            else Returns None
        end in
      match chosen with
      | Raises e => Raises e
      | Returns None => Returns None
      | Returns (Some k) =>
          match cols !! k with
          | Some l => if truthy l then Returns (Some k) else Returns None
          | None => Returns None
          end
      end
  end.

End ColumnLookup.

(** The labels a search passes over without stopping. *)
Definition passed_over (lower : list N → list N) (test : str → bool)
    (l : label) : Prop :=
  ∃ s, l = LStr s ∧ test (lower s) = false.

(** The column names as [main] rewrites them:
    [re.sub(r'[^a-zA-Z0-9_]', '_', col)]. *)
Definition clean_column_name (col : str) : str :=
  (λ c, if Char.is_word c then c else 95%N) <$> col.

(** ** More auxiliary notions *)

(** The last cell of a column that is not empty, if any. *)
Definition last_valid (col : list cell) : cell :=
  default None (last (List.filter (λ v : cell, negb (isna_or_empty v)) col)).

(** Text in which every blank is a single space between two other
    characters; [after_space] tells that a space came just before. *)
Fixpoint collapsed (after_space : bool) (s : str) : bool :=
  match s with
  | [] => true
  | c :: s' =>
      if Char.is_space c
      then (c =? 32)%N && negb after_space && collapsed true s'
      else collapsed false s'
  end.

(** No blank at either end. *)
Definition trimmed (s : str) : Prop :=
  (∀ c, head s = Some c → Char.is_space c = false) ∧
  (∀ c, last s = Some c → Char.is_space c = false).

(** * Properties *)

(** ** Characters and matchers *)

Lemma alpha_not_space c : Char.is_ascii_alpha c = true → Char.is_space c = false.
Proof.
  intros Ha. destruct (Char.is_space c) eqn:E; [|done].
  apply existsb_exists in E as (w & Hin & Heq).
  apply N.eqb_eq in Heq. subst w.
  simpl in Hin. repeat (destruct Hin as [<-|Hin]; [by vm_compute in Ha|]).
  done.
Qed.

Lemma dash_not_space c : Char.is_dash c = true → Char.is_space c = false.
Proof.
  intros Hd. destruct (Char.is_space c) eqn:E; [|done].
  apply existsb_exists in E as (w & Hin & Heq).
  apply N.eqb_eq in Heq. subst w.
  simpl in Hin. repeat (destruct Hin as [<-|Hin]; [by vm_compute in Hd|]).
  done.
Qed.

Lemma span_upto_digits n s : Forall (λ c, Char.is_digit c = true) (Re.span_upto Char.is_digit n s).1.
Proof.
  revert s. induction n as [|n IH]; intros [|c s]; simpl; try by constructor.
  destruct (Char.is_digit c) eqn:E; [|by constructor].
  specialize (IH s). destruct (Re.span_upto Char.is_digit n s). simpl in *.
  by constructor.
Qed.

Lemma search_Some {A} (m : list N → option A) s r :
  Re.search m s = Some r → ∃ pre s', s = pre ++ s' ∧ m s' = Some r.
Proof.
  induction s as [|c s IH]; simpl.
  - destruct (m []) eqn:E; [|done]. intros [= <-]. by exists [], [].
  - destruct (m (c :: s)) eqn:E.
    + intros [= <-]. by exists [], (c :: s).
    + intros (pre & s' & -> & H)%IH. by exists (c :: pre), s'.
Qed.

Lemma search_None {A} (m : list N → option A) s :
  Re.search m s = None → m s = None.
Proof. destruct s; simpl; by destruct (m _). Qed.

(** [int] reads every non-empty run of decimal digits. *)
Lemma py_int_digits s :
  s ≠ [] → Forall (λ c, Char.is_digit c = true) s → ∃ z, py_int s = Ok z.
Proof.
  intros Hne Hall. unfold py_int. destruct s as [|c0 s0]; [done|].
  clear Hne. generalize 0%Z. revert Hall. generalize (c0 :: s0). clear.
  intros s Hall. induction Hall as [|c s Hc _ IH]; intros a; simpl.
  - by exists a.
  - unfold Char.is_digit in Hc. destruct (Char.to_decimal c); [|done].
    apply IH.
Qed.

Lemma meridiem_shape s g rest :
  Re.meridiem s = (Some g, rest) → is_meridiem g.
Proof.
  unfold Re.meridiem, is_meridiem. destruct s as [|a [|m r]]; try done.
  destruct (_ || _) eqn:E; [|done]. intros [= <- <-].
  rewrite !orb_true_iff, !andb_true_iff, !orb_true_iff, !N.eqb_eq in E.
  unfold text; simpl.
  destruct E as [[[-> | ->] ->] | [[-> | ->] ->]]; auto.
Qed.

(** What the groups of the time pattern of [extract_time] look like. *)
Lemma time_groups_shape s g1 g2 g3 :
  Re.time_groups s = Some (g1, g2, g3) →
  g1 ≠ [] ∧ Forall (λ c, Char.is_digit c = true) g1 ∧
  (∀ m, g2 = Some m → m ≠ [] ∧ Forall (λ c, Char.is_digit c = true) m) ∧
  (∀ g, g3 = Some g → is_meridiem g).
Proof.
  unfold Re.time_groups.
  pose proof (span_upto_digits 2 s) as Hd.
  destruct (Re.span_upto Char.is_digit 2 s) as [d1 s1]. simpl in Hd.
  destruct d1 as [|c d1]; [done|].
  destruct (Re.opt_char _ s1) as [? s2].
  destruct (Re.two_digits s2) as [o2 s3] eqn:E2.
  destruct (Re.span Char.is_space s3) as [? s4].
  destruct (Re.meridiem s4) as [o3 s5] eqn:E3.
  intros [= <- <- <-]. split; [done|]. split; [done|]. split.
  - intros g ->. unfold Re.two_digits in E2.
    destruct s2 as [|a [|b r]]; try done.
    destruct (Char.is_digit a) eqn:Ea, (Char.is_digit b) eqn:Eb; simpl in E2;
      try done.
    injection E2 as <- <-. split; [done|]. by repeat constructor.
  - intros g ->. by eapply meridiem_shape.
Qed.

(** ** The parsers do not raise *)

Lemma extract_time_total x : ∃ v, extract_time x = Ok v.
Proof.
  destruct x as [[|c s]|]; [by eexists..| |by eexists].
  unfold extract_time.
  destruct (Re.search _ _) as [[[g1 g2] g3]|] eqn:E; eauto.
  apply search_Some in E as (pre & s' & _ & E).
  apply time_groups_shape in E as (H1 & H2 & H3 & _).
  destruct (py_int_digits g1 H1 H2) as [h ->]. unbind.
  destruct g2 as [[|c' m]|]; eauto.
  destruct (H3 _ eq_refl) as [Hne Hd].
  destruct (py_int_digits _ Hne Hd) as [mi ->]. unbind. eauto.
Qed.

Lemma py_index_lt {A} (l : list A) i : i < length l → ∃ x, py_index l i = Ok x.
Proof.
  intros [x Hx]%lookup_lt_is_Some_2. unfold py_index. rewrite Hx. eauto.
Qed.

Lemma extract_start_end_times_total x : ∃ v, extract_start_end_times x = Ok v.
Proof.
  destruct x as [[|c s]|]; [by eexists..| |by eexists].
  unfold extract_start_end_times.
  case_bool_decide as H1.
  - destruct (py_index_lt (split_time_parts (c :: s)) 0) as [p0 ->]; [lia|].
    unbind. destruct (extract_time_total (Some p0)) as [st ->]. unbind.
    destruct (py_index_lt (split_time_parts (c :: s)) 1) as [p1 ->]; [lia|].
    unbind. destruct (extract_time_total (Some p1)) as [en ->]. unbind. eauto.
  - case_bool_decide as H2; eauto.
    destruct (py_index_lt (Re.findall (c :: s)) 0) as [t0 ->]; [lia|].
    unbind. destruct (extract_time_total (Some t0.1)) as [st ->]. unbind.
    destruct (py_index_lt (Re.findall (c :: s)) 1) as [t1 ->]; [lia|].
    unbind. destruct (extract_time_total (Some t1.1)) as [en ->]. unbind. eauto.
Qed.

Lemma dict_lookup_of_find (d : list (str * Z)) P kv :
  find P d = Some kv → ∃ v, dict_lookup d kv.1 = Some v.
Proof.
  intros [Hin _]%find_some. unfold dict_lookup.
  destruct (find _ d) as [kv'|] eqn:E; [by exists kv'.2|].
  eapply find_none in E; [|exact Hin]. simpl in E.
  unfold str_eqb in E. by rewrite bool_decide_eq_true_2 in E.
Qed.

Lemma extract_day_total x : ∃ v, extract_day x = Ok v.
Proof.
  destruct x as [[|c s]|]; [by eexists..| |by eexists].
  unfold extract_day.
  destruct (Re.day_abbr _) as [g|]; eauto.
  unfold dict_getitem.
  destruct (dict_lookup day_mapping (py_lower g)) as [v|] eqn:E.
  - unbind. eauto.
  - destruct (find _ day_mapping) as [kv|] eqn:F; eauto.
    apply dict_lookup_of_find in F as [v ->]. unbind. eauto.
Qed.

(** C8. The cleaner [sanitize_period], the token deriver
    [convert_to_sql_period], the day extractor and the start/end
    extractor (and [extract_time], which the latter calls) return a value
    on every cell, be it any text at all or the missing value: none of
    them raises, and what an extraction cannot find is [None]. *)
Theorem parsing_core_total (x : cell) :
  (∃ v : str, sanitize_period x = Ok v) ∧
  (∃ v : cell, convert_to_sql_period x = Ok v) ∧
  (∃ v : option Z, extract_day x = Ok v) ∧
  (∃ v : option Z, extract_time x = Ok v) ∧
  (∃ v : option Z * option Z, extract_start_end_times x = Ok v) ∧
  (∃ v : ParsedSchedule, parse x = Ok v).
Proof.
  split; [|split; [|split; [|split; [|split]]]].
  - destruct x as [[|c s]|]; by eexists.
  - destruct x as [[|c s]|]; [by eexists..| |by eexists].
    unfold convert_to_sql_period.
    destruct (List.filter _ _) as [|d tok]; [by eexists|].
    destruct (Char.is_ascii_digit d); by eexists.
  - apply extract_day_total.
  - apply extract_time_total.
  - apply extract_start_end_times_total.
  - unfold parse. destruct (extract_day_total x) as [d ->]. unbind.
    destruct (extract_start_end_times_total x) as [t ->]. unbind. by eexists.
Qed.

(** ** The schedule parser *)

(** C3. On ["Th 09:30AM - 12:15PM"] the parser gives day 4, start time
    930 and end time 1215. *)
Theorem parse_thursday_morning :
  parse (Some (text "Th 09:30AM - 12:15PM"))
  = Ok {| day_num := Some 4%Z; start_time := Some 930%Z;
          end_time := Some 1215%Z |}.
Proof. vm_compute. reflexivity. Qed.

(** C4. Whenever the time pattern is found in a token, with [g1] the
    hour digits, [g2] the minute digits if any and [g3] the meridiem if
    any, [extract_time] returns [hour24 * 100 + minute], where [hour] is
    the number [g1] reads as, [minute] the number [g2] reads as (0 when
    there is none), and [hour24] is [hour + 12] for "pm" with [hour < 12],
    0 for "am" with [hour = 12], and [hour] itself in every other case, in
    particular when there is no meridiem.  And ["M 1:00 - 2:15"] parses to
    day 1, start time 100, end time 215. *)
Theorem extract_time_12_to_24 :
  (∀ (s g1 : str) (g2 g3 : option str),
     Re.search Re.time_groups s = Some (g1, g2, g3) →
     ∃ hour minute hour24 : Z,
       py_int g1 = Ok hour ∧
       match g2 with
       | Some m => py_int m = Ok minute
       | None => minute = 0%Z
       end ∧
       (py_lower <$> g3 = Some (text "pm") → (hour < 12)%Z →
        hour24 = (hour + 12)%Z) ∧
       (py_lower <$> g3 = Some (text "pm") → (12 ≤ hour)%Z → hour24 = hour) ∧
       (py_lower <$> g3 = Some (text "am") → hour = 12%Z → hour24 = 0%Z) ∧
       (py_lower <$> g3 = Some (text "am") → hour ≠ 12%Z → hour24 = hour) ∧
       (g3 = None → hour24 = hour) ∧
       extract_time (Some s) = Ok (Some (hour24 * 100 + minute)%Z))
  ∧ parse (Some (text "M 1:00 - 2:15"))
    = Ok {| day_num := Some 1%Z; start_time := Some 100%Z;
            end_time := Some 215%Z |}.
Proof.
  split; [|by vm_compute].
  intros s g1 g2 g3 E.
  assert (Hs : s ≠ []) by (intros ->; by vm_compute in E).
  destruct s as [|c s]; [done|]. clear Hs.
  unfold extract_time. rewrite E.
  apply search_Some in E as (pre & s' & _ & E).
  apply time_groups_shape in E as (H1 & H2 & H3 & H4).
  destruct (py_int_digits g1 H1 H2) as [h Hh]. rewrite Hh. unbind.
  assert (∃ mi, match g2 with Some (c :: m) => py_int (c :: m) | _ => Ok 0%Z end
                = Ok mi ∧
                match g2 with Some m => py_int m = Ok mi | None => mi = 0%Z end)
    as (mi & -> & Hmi).
  { destruct g2 as [m|]; [|by exists 0%Z].
    destruct (H3 _ eq_refl) as [Hne Hd].
    destruct (py_int_digits _ Hne Hd) as [mi Hm].
    destruct m; [done|]. by exists mi. }
  unbind. exists h, mi, (to_24h (py_lower <$> g3) h).
  split; [done|]. split; [done|].
  unfold to_24h.
  destruct (Z.ltb_spec h 12) as [Hlt|Hge], (Z.eqb_spec h 12) as [Heq|Hne];
    repeat split; intros Hg; try intros Hh';
    repeat case_bool_decide; simplify_eq; simpl; try done; try lia.
Qed.

(** C5. When the split on dashes yields fewer than two parts holding a
    time and the scan of the whole text yields fewer than two matches of
    the time pattern, both the start and the end time are absent; and the
    empty text and the missing value give an absent day, start and end. *)
Theorem too_few_time_tokens :
  (∀ s : str,
     length (split_time_parts s) < 2 → length (Re.findall s) < 2 →
     extract_start_end_times (Some s) = Ok (None, None))
  ∧ parse (Some []) = Ok {| day_num := None; start_time := None;
                            end_time := None |}
  ∧ parse None = Ok {| day_num := None; start_time := None;
                       end_time := None |}.
Proof.
  split; [|by split].
  intros [|c s] H1 H2; [done|].
  unfold extract_start_end_times.
  rewrite bool_decide_eq_false_2 by lia.
  by rewrite bool_decide_eq_false_2 by lia.
Qed.

(** ** The token deriver *)

Lemma underscore_and_strip_code (is_sep : N → bool) (s : str) :
  List.filter Char.is_word ((λ c, if is_sep c then 95%N else c) <$> s)
  = underscore_and_strip is_sep s.
Proof.
  induction s as [|c s IH]; [done|]. simpl.
  destruct (is_sep c); simpl; [f_equal; exact IH|].
  destruct (Char.is_word c); [f_equal|]; exact IH.
Qed.

Lemma convert_to_sql_period_derive x :
  convert_to_sql_period x = Ok (derive_token_with is_sql_separator x).
Proof.
  destruct x as [[|c s]|]; try done.
  unfold convert_to_sql_period, derive_token_with.
  rewrite underscore_and_strip_code.
  destruct (underscore_and_strip _ _) as [|d tok]; [done|].
  by destruct (Char.is_ascii_digit d).
Qed.

Lemma underscore_and_strip_word (is_sep : N → bool) (s : str) :
  Forall (λ c, Char.is_word c = true) (underscore_and_strip is_sep s).
Proof.
  induction s as [|c s IH]; simpl; [constructor|].
  destruct (is_sep c); [by constructor|].
  destruct (Char.is_word c) eqn:E; [by constructor|done].
Qed.

Lemma collapse_spaces_plain b s : only_plain_spaces (Re.collapse_spaces b s).
Proof.
  revert b. induction s as [|c s IH]; intros b; simpl; [constructor|].
  destruct (Char.is_space c) eqn:E.
  - destruct b; [apply IH|]. constructor; [done|apply IH].
  - constructor; [congruence|apply IH].
Qed.

Lemma sanitize_period_plain x s : sanitize_period x = Ok s → only_plain_spaces s.
Proof.
  destruct x as [[|c r]|]; simpl; intros [= <-];
    [constructor|apply collapse_spaces_plain|constructor].
Qed.

Lemma underscore_and_strip_plain s :
  only_plain_spaces s →
  underscore_and_strip is_sql_separator s
  = underscore_and_strip is_listed_separator s.
Proof.
  induction 1 as [|c s Hc _ IH]; [done|]. simpl. rewrite IH.
  replace (is_sql_separator c) with (is_listed_separator c); [done|].
  unfold is_sql_separator, is_listed_separator.
  destruct (Char.is_space c) eqn:E.
  - by rewrite (Hc eq_refl).
  - destruct (N.eqb_spec c 32) as [->|]; [by vm_compute in E|].
    by rewrite !orb_false_r.
Qed.

(** C7, as the code has it.  [convert_to_sql_period] turns into an
    underscore every period, slash, hyphen and colon and every blank
    character, the space and also the tab, the line break, the no-break
    space and whatever else [\s] matches; it then drops the characters
    outside [[A-Za-z0-9_]], and puts [p_] before a token that starts with
    a digit.  On cleaned text, as [sanitize_period] returns it, the only
    blank is the space, and the result is the one the five listed
    separators give.  Every token consists of characters of
    [[A-Za-z0-9_]]; the empty text and the missing value give no token;
    ["09:30-12:15"] gives [p_09_30_12_15]. *)
Theorem convert_to_sql_period_spec :
  (∀ x : cell,
     convert_to_sql_period x = Ok (derive_token_with is_sql_separator x)) ∧
  (∀ c : N, is_sql_separator c = is_listed_separator c || Char.is_space c) ∧
  (∀ (x : cell) (s : str),
     sanitize_period x = Ok s →
     convert_to_sql_period (Some s) = Ok (derive_token_spec (Some s))) ∧
  (∀ (x : cell) (tok : str),
     convert_to_sql_period x = Ok (Some tok) →
     Forall (λ c, Char.is_word c = true) tok) ∧
  convert_to_sql_period None = Ok None ∧
  convert_to_sql_period (Some []) = Ok None ∧
  convert_to_sql_period (Some (text "09:30-12:15"))
  = Ok (Some (text "p_09_30_12_15")).
Proof.
  split; [apply convert_to_sql_period_derive|].
  split.
  { intros c. unfold is_sql_separator, is_listed_separator.
    destruct (c =? 46)%N, (c =? 47)%N, (c =? 32)%N eqn:E, (c =? 45)%N,
      (c =? 58)%N, (Char.is_space c) eqn:F; try done.
    apply N.eqb_eq in E as ->. by vm_compute in F. }
  split.
  { intros x s Hs%sanitize_period_plain.
    rewrite convert_to_sql_period_derive. f_equal.
    destruct s as [|c s]; [done|].
    unfold derive_token_spec, derive_token_with.
    by rewrite underscore_and_strip_plain. }
  split; [|done].
  intros x tok. rewrite convert_to_sql_period_derive. intros [= H].
  destruct x as [[|c s]|]; try done. unfold derive_token_with in H.
  pose proof (underscore_and_strip_word is_sql_separator (c :: s)) as Hw.
  destruct (underscore_and_strip _ _) as [|d t]; [by simplify_eq|].
  destruct (Char.is_ascii_digit d); simplify_eq; [|done].
  change (text "p_" ++ d :: t) with (112%N :: 95%N :: d :: t).
  constructor; [done|]. constructor; [done|]. exact Hw.
Qed.

Lemma convert_to_sql_period_spec_witness :
  convert_to_sql_period (Some (text "Th 09:30AM - 12:15PM"))
  = Ok (derive_token_spec (Some (text "Th 09:30AM - 12:15PM"))).
Proof.
  apply (proj1 (proj2 (proj2 convert_to_sql_period_spec))
           (Some (text "  Th   09:30AM -  12:15PM "))).
  vm_compute. reflexivity.
Defined.

(** C7 as stated fails on a text with a tab: the code turns the tab
    into an underscore, where the five listed separators leave it to be
    dropped. *)
Lemma convert_to_sql_period_tab :
  convert_to_sql_period (Some [97; 9; 98]%N) = Ok (Some (text "a_b")) ∧
  derive_token_spec (Some [97; 9; 98]%N) = Some (text "ab") ∧
  convert_to_sql_period (Some [97; 9; 98]%N)
  ≠ Ok (derive_token_spec (Some [97; 9; 98]%N)).
Proof. split; [|split]; by vm_compute. Qed.

(** ** The day lexicon *)

Lemma letters_then_space_Some k s g :
  Re.letters_then_space k s = Some g →
  g = take k s ∧ length g = k ∧
  Forall (λ c, Char.is_ascii_alpha c = true) g ∧
  ∃ c, s !! k = Some c ∧ Char.is_space c = true.
Proof.
  unfold Re.letters_then_space.
  destruct (_ && _) eqn:E; [|done]. intros [= <-].
  apply andb_true_iff in E as [[E1 E2]%andb_true_iff E3].
  apply bool_decide_eq_true in E1. split; [done|]. split; [done|]. split.
  - apply Forall_forall. intros c Hc%list_elem_of_In.
    rewrite forallb_forall in E2. by apply E2.
  - destruct (s !! k) as [c|]; [|done]. by exists c.
Qed.

Lemma day_abbr_Some s g :
  Re.day_abbr s = Some g →
  1 ≤ length g ≤ 3 ∧ g = take (length g) s ∧
  Forall (λ c, Char.is_ascii_alpha c = true) g ∧
  ∃ c, s !! length g = Some c ∧ Char.is_space c = true.
Proof.
  unfold Re.day_abbr.
  destruct (Re.letters_then_space 3 s) eqn:E3;
    [|destruct (Re.letters_then_space 2 s) eqn:E2];
    intros H; simplify_eq;
    match goal with
    | H : Re.letters_then_space _ _ = Some _ |- _ =>
        apply letters_then_space_Some in H as (H1 & H2 & H3 & H4)
    end; rewrite H2; repeat split; try done; lia.
Qed.

Lemma dict_lookup_key (d : list (str * Z)) k :
  k ∈ d.*1 → ∃ v, dict_lookup d k = Some v.
Proof.
  intros (kv & -> & Hin)%list_elem_of_fmap.
  unfold dict_lookup. destruct (find _ d) as [kv'|] eqn:E; [by exists kv'.2|].
  eapply find_none in E; [|by apply list_elem_of_In]. simpl in E.
  unfold str_eqb in E. by rewrite bool_decide_eq_true_2 in E.
Qed.

(** The keys are closed under prefixes of one to three characters. *)
Lemma lexicon_prefix_closed (tok key : str) :
  key ∈ lexicon_keys → tok `prefix_of` key → 1 ≤ length tok ≤ 3 →
  tok ∈ lexicon_keys.
Proof.
  intros Hkey [rest ->] Hlen.
  assert (forallb (λ key : str,
            forallb (λ k, negb (k <=? length key)
                          || bool_decide (take k key ∈ lexicon_keys))
                    [1; 2; 3]) lexicon_keys = true) as Hall by by vm_compute.
  rewrite forallb_forall in Hall.
  apply list_elem_of_In, Hall in Hkey. rewrite forallb_forall in Hkey.
  specialize (Hkey (length tok)). rewrite take_app_length in Hkey.
  assert (In (length tok) [1; 2; 3]) as Hin by (simpl; lia).
  apply Hkey, orb_true_iff in Hin as [Hin|Hin].
  - apply negb_true_iff, Nat.leb_gt in Hin. rewrite length_app in Hin. lia.
  - by apply bool_decide_eq_true in Hin.
Qed.

Lemma py_lower_length s : length (py_lower s) = length s.
Proof. apply length_fmap. Qed.

(** The loop over the keys that start with the token never returns. *)
Lemma extract_day_exact (x : cell) : extract_day x = Ok (exact_day x).
Proof.
  destruct x as [[|c s]|]; try done.
  unfold extract_day, exact_day.
  destruct (Re.day_abbr (c :: s)) as [g|] eqn:Eg; [|done].
  cbn [mbind option_bind].
  apply day_abbr_Some in Eg as (Hlen & _).
  unfold dict_getitem.
  destruct (dict_lookup day_mapping (py_lower g)) as [v|] eqn:E; [done|].
  destruct (find _ day_mapping) as [kv|] eqn:F; [exfalso|done].
  apply find_some in F as [Hin Hst].
  unfold startswith, str_eqb in Hst. apply bool_decide_eq_true in Hst.
  destruct (dict_lookup_key day_mapping (py_lower g)) as [v Hv]; [|congruence].
  apply (lexicon_prefix_closed _ kv.1).
  - apply list_elem_of_fmap. exists kv. split; [done|by apply list_elem_of_In].
  - exists (drop (length (py_lower g)) kv.1).
    rewrite <- Hst at 1. by rewrite take_drop.
  - by rewrite py_lower_length.
Qed.

Lemma leading_letters_4 s :
  3 < length (leading_letters s) →
  ∃ a b c d rest, s = a :: b :: c :: d :: rest ∧
    Char.is_ascii_alpha a = true ∧ Char.is_ascii_alpha b = true ∧
    Char.is_ascii_alpha c = true ∧ Char.is_ascii_alpha d = true.
Proof.
  unfold leading_letters.
  destruct s as [|a [|b [|c [|d rest]]]]; simpl;
    repeat (match goal with
            | |- context [if Char.is_ascii_alpha ?x then _ else _] =>
                destruct (Char.is_ascii_alpha x) eqn:?
            end; simpl); try lia.
  intros _. by exists a, b, c, d, rest.
Qed.

Lemma day_abbr_long s : 3 < length (leading_letters s) → Re.day_abbr s = None.
Proof.
  intros (a & b & c & d & rest & -> & Ha & Hb & Hc & Hd)%leading_letters_4.
  unfold Re.day_abbr, Re.letters_then_space. simpl.
  rewrite (alpha_not_space b), (alpha_not_space c), (alpha_not_space d) by done.
  by rewrite !andb_false_r.
Qed.

(** C9. A text of one to three characters that is a strict prefix of a
    key of the day lexicon is itself a key; hence the loop over the keys
    that start with the token never decides: the day is the one the
    exact lookup gives, for every cell.  A cell that begins with ["S "]
    gives day 6. *)
Theorem day_by_exact_lookup :
  (∀ tok key : str,
     key ∈ lexicon_keys → tok `prefix_of` key → tok ≠ key →
     1 ≤ length tok ≤ 3 → tok ∈ lexicon_keys) ∧
  (∀ x : cell, extract_day x = Ok (exact_day x)) ∧
  (∀ rest : str, extract_day (Some (text "S " ++ rest)) = Ok (Some 6%Z)).
Proof.
  split; [|split].
  - intros tok key Hk Hp _ Hl. by apply (lexicon_prefix_closed tok key).
  - apply extract_day_exact.
  - intros rest. rewrite extract_day_exact.
    change (text "S " ++ rest) with (83%N :: 32%N :: rest).
    unfold exact_day, Re.day_abbr, Re.letters_then_space. simpl.
    by rewrite !andb_false_r.
Qed.

Lemma day_by_exact_lookup_witness : text "sa" ∈ lexicon_keys.
Proof.
  apply (proj1 day_by_exact_lookup (text "sa") (text "saturday")).
  - by apply (bool_decide_unpack _); vm_compute.
  - by exists (text "turday").
  - done.
  - simpl. lia.
Defined.

(** C10. A text whose leading run of letters is longer than three gives
    no day: so ["Thur 09:30AM - 12:15PM"] and ["Monday 9AM - 10AM"] have
    none, although "thur" and "monday" are keys of the lexicon.  The
    token of a day that is found has three characters at most. *)
Theorem long_leading_word_no_day :
  (∀ s : str,
     3 < length (leading_letters s) → extract_day (Some s) = Ok None) ∧
  extract_day (Some (text "Thur 09:30AM - 12:15PM")) = Ok None ∧
  extract_day (Some (text "Monday 9AM - 10AM")) = Ok None ∧
  text "thur" ∈ lexicon_keys ∧ text "monday" ∈ lexicon_keys ∧
  (∀ (x : cell) (d : Z),
     extract_day x = Ok (Some d) →
     ∃ key : str, length key ≤ 3 ∧ dict_lookup day_mapping key = Some d).
Proof.
  split; [|split; [|split; [|split; [|split]]]].
  - intros s Hs. rewrite extract_day_exact. f_equal.
    destruct s as [|c s]; [done|].
    unfold exact_day. by rewrite day_abbr_long.
  - by vm_compute.
  - by vm_compute.
  - by apply (bool_decide_unpack _); vm_compute.
  - by apply (bool_decide_unpack _); vm_compute.
  - intros x d. rewrite extract_day_exact. intros [= H].
    destruct x as [[|c s]|]; try done. unfold exact_day in H.
    destruct (Re.day_abbr (c :: s)) as [g|] eqn:Eg; [|done].
    cbn [mbind option_bind] in H.
    apply day_abbr_Some in Eg as (Hlen & _).
    exists (py_lower g). rewrite py_lower_length. split; [lia|done].
Qed.

Lemma long_leading_word_no_day_witness :
  extract_day (Some (text "Thurs 9AM")) = Ok None.
Proof.
  apply (proj1 long_leading_word_no_day (text "Thurs 9AM")).
  vm_compute. lia.
Defined.

(** ** The grouping branch *)

Lemma copy_empty_cells_length n (p r : row) :
  length (copy_empty_cells n p r) = length r.
Proof.
  unfold copy_empty_cells. generalize (seq 0 n). intros cols. revert r.
  induction cols as [|col cols IH]; intros r; [done|]. simpl.
  rewrite IH. destruct (isna_or_empty _); [apply length_insert|done].
Qed.

Lemma copy_empty_cells_lookup n (p r : row) c :
  copy_empty_cells n p r !! c
  = (λ v : cell, if decide (c < n)
                 then (if isna_or_empty v then p !!! c else v) else v)
      <$> r !! c.
Proof.
  revert c. induction n as [|n IH]; intros c.
  - unfold copy_empty_cells. simpl. destruct (r !! c); simpl; [|done].
    destruct (decide (c < 0)); [lia|done].
  - pose proof (copy_empty_cells_length n p r) as Hlen.
    unfold copy_empty_cells in *. rewrite seq_S, foldl_app. simpl.
    set (T := foldl _ r (seq 0 n)) in *.
    assert (T !!! n = r !!! n) as Hn.
    { rewrite !list_lookup_total_alt, IH. destruct (r !! n); simpl; [|done].
      destruct (decide (n < n)); [lia|done]. }
    rewrite Hn. destruct (isna_or_empty (r !!! n)) eqn:E.
    + rewrite list_lookup_insert. case_decide as Hc.
      * destruct Hc as [<- Hlt]. rewrite Hlen in Hlt.
        rewrite (list_lookup_lookup_total_lt r n Hlt). simpl.
        rewrite E. destruct (decide (n < S n)); [done|lia].
      * rewrite IH. destruct (r !! c) as [v|] eqn:Ev; simpl; [|done].
        assert (c ≠ n) as Hne.
        { intros ->. apply Hc. split; [done|]. rewrite Hlen.
          by eapply lookup_lt_Some. }
        repeat case_decide; try done; lia.
    + rewrite IH. destruct (r !! c) as [v|] eqn:Ev; simpl; [|done].
      repeat case_decide; try done; try lia.
      assert (c = n) as -> by lia.
      rewrite (list_lookup_total_correct _ _ _ Ev) in E. by rewrite E.
Qed.

Lemma fill_from_merge n g (p r : row) :
  length p = n → length r = n → isna_or_empty (r !!! g) = true →
  fill_from n g p r = merge_rows p r.
Proof.
  intros Hp Hr Hg. apply list_eq. intros c.
  unfold fill_from, merge_rows.
  rewrite copy_empty_cells_lookup, lookup_zip_with, list_lookup_insert.
  destruct (decide (c < n)) as [Hc|Hc].
  - rewrite (list_lookup_lookup_total_lt p c), (list_lookup_lookup_total_lt r c)
      by lia. simpl.
    case_decide as Hgc; simpl.
    + destruct Hgc as [-> _]. rewrite Hg. by destruct (isna_or_empty (p !!! c)).
    + done.
  - rewrite (lookup_ge_None_2 r c), (lookup_ge_None_2 p c) by lia.
    by case_decide as Hgc; [destruct Hgc; lia|].
Qed.

Lemma merge_rows_length (p r : row) :
  length p = length r → length (merge_rows p r) = length r.
Proof. intros H. unfold merge_rows. rewrite length_zip_with. lia. Qed.

Lemma merge_rows_lookup_total (p r : row) c :
  length p = length r →
  merge_rows p r !!! c = if isna_or_empty (r !!! c) then p !!! c else r !!! c.
Proof.
  intros H. destruct (decide (c < length r)) as [Hc|Hc].
  - unfold merge_rows. by rewrite (lookup_total_zip_with _ p r c) by lia.
  - rewrite !list_lookup_total_alt.
    rewrite (lookup_ge_None_2 (merge_rows p r)), (lookup_ge_None_2 r),
      (lookup_ge_None_2 p); [done|lia..|rewrite merge_rows_length; lia].
Qed.

Lemma merge_rows_idemp (p r : row) :
  length p = length r → merge_rows p (merge_rows p r) = merge_rows p r.
Proof.
  revert r. induction p as [|a p IH]; intros [|b r] H; try done.
  simpl in *. f_equal; [|apply IH; lia].
  destruct (isna_or_empty b) eqn:Eb; [by destruct (isna_or_empty a)|].
  by rewrite Eb.
Qed.

Lemma fill_step_length n g prev_row (r : row) :
  prev_fits n prev_row → length r = n → length (fill_step n g prev_row r) = n.
Proof.
  intros Hp Hr. unfold fill_step.
  destruct (isna_or_empty (r !!! g)) eqn:E; [|done].
  destruct prev_row as [p|]; [|done].
  rewrite fill_from_merge by auto. rewrite merge_rows_length; auto.
  rewrite Hr. by apply Hp.
Qed.

Lemma fill_step_idemp n g prev_row (r : row) :
  prev_fits n prev_row → length r = n →
  fill_step n g prev_row (fill_step n g prev_row r) = fill_step n g prev_row r.
Proof.
  intros Hp Hr.
  assert (fill_step n g prev_row r = r ∨
          ∃ p, prev_row = Some p ∧ fill_step n g prev_row r = merge_rows p r)
    as [Hsame | (p & -> & Hm)].
  { unfold fill_step. destruct (isna_or_empty (r !!! g)) eqn:E; [|by left].
    destruct prev_row as [p|]; [|by left].
    right. exists p. split; [done|]. apply fill_from_merge; auto. }
  - by rewrite !Hsame.
  - specialize (Hp p eq_refl). rewrite Hm. unfold fill_step.
    destruct (isna_or_empty (merge_rows p r !!! g)) eqn:E2; [|done].
    rewrite fill_from_merge; auto.
    + apply merge_rows_idemp. lia.
    + rewrite merge_rows_length; lia.
Qed.

Lemma fill_rows_idemp n g prev_row (rs : list row) :
  prev_fits n prev_row → Forall (λ r : row, length r = n) rs →
  fill_rows n g prev_row (fill_rows n g prev_row rs) = fill_rows n g prev_row rs.
Proof.
  intros Hp Hrs. revert prev_row Hp.
  induction Hrs as [|r rs Hr _ IH]; intros prev_row Hp; [done|].
  simpl. rewrite fill_step_idemp by done. f_equal.
  apply IH. intros p [= <-]. by apply fill_step_length.
Qed.

Lemma fill_rows_length n g prev_row (rs : list row) :
  length (fill_rows n g prev_row rs) = length rs.
Proof.
  revert prev_row. induction rs as [|r rs IH]; intros prev_row; [done|].
  simpl. by rewrite IH.
Qed.

(** Row [i + 1] of the output is one step from row [i] of the output and
    row [i + 1] of the input. *)
Lemma fill_rows_lookup_S n g prev_row (rs : list row) i (r : row) :
  rs !! S i = Some r →
  ∃ p : row, fill_rows n g prev_row rs !! i = Some p ∧
             fill_rows n g prev_row rs !! S i = Some (fill_step n g (Some p) r).
Proof.
  revert prev_row i. induction rs as [|r0 rs IH]; intros prev_row i H; [done|].
  simpl in H. destruct i as [|i].
  - destruct rs as [|r1 rs]; [done|]. simpl in H. injection H as ->.
    simpl. by eexists.
  - simpl. apply (IH (Some (fill_step n g prev_row r0))) in H. exact H.
Qed.

Lemma fill_rows_Forall_length n g prev_row (rs : list row) :
  prev_fits n prev_row → Forall (λ r : row, length r = n) rs →
  Forall (λ r : row, length r = n) (fill_rows n g prev_row rs).
Proof.
  intros Hp Hrs. revert prev_row Hp.
  induction Hrs as [|r rs Hr _ IH]; intros prev_row Hp; simpl; constructor.
  - by apply fill_step_length.
  - apply IH. intros p [= <-]. by apply fill_step_length.
Qed.

(** ** The fallback branch *)

Lemma ffill_length last (col : list cell) : length (ffill last col) = length col.
Proof.
  revert last. induction col as [|[v|] col IH]; intros last; simpl;
    by rewrite ?IH.
Qed.

Lemma ffill_column_length (col : list cell) :
  length (ffill_column col) = length col.
Proof. unfold ffill_column, replace_empty. by rewrite ffill_length, length_fmap. Qed.

Lemma ffill_column_cons v (col : list cell) :
  ffill_column (v :: col) !! 0 = Some (if isna_or_empty v then None else v).
Proof.
  unfold ffill_column. simpl. destruct v as [[|c s]|]; by simpl.
Qed.

(** A column that has been filled has no empty text left, and filling
    it again changes nothing. *)
Lemma replace_empty_cons v (col : list cell) :
  replace_empty (v :: col)
  = (if isna_or_empty v then None else v) :: replace_empty col.
Proof. done. Qed.

Lemma ffill_replace_stable last (col : list cell) :
  (isna_or_empty last = true → last = None) →
  replace_empty (ffill last (replace_empty col)) = ffill last (replace_empty col)
  ∧ ffill last (ffill last (replace_empty col)) = ffill last (replace_empty col).
Proof.
  revert last. induction col as [|v col IH]; intros last Hl; [done|].
  rewrite replace_empty_cons. destruct (isna_or_empty v) eqn:Ev.
  - destruct (IH last Hl) as [IH1 IH2]. cbn [ffill].
    rewrite replace_empty_cons, IH1. split.
    + f_equal. destruct (isna_or_empty last) eqn:El; [|done].
      by rewrite (Hl eq_refl).
    + destruct last; cbn [ffill]; by rewrite IH2.
  - destruct v as [w|]; [|done].
    destruct (IH (Some w)) as [IH1 IH2]; [congruence|]. cbn [ffill].
    by rewrite replace_empty_cons, Ev, IH1, IH2.
Qed.

Lemma ffill_column_idemp (col : list cell) :
  ffill_column (ffill_column col) = ffill_column col.
Proof.
  unfold ffill_column.
  destruct (ffill_replace_stable None col (λ _, eq_refl)) as [H1 H2].
  by rewrite H1, H2.
Qed.

Lemma get_col_length c (rs : list row) : length (get_col c rs) = length rs.
Proof. apply length_fmap. Qed.

Lemma set_col_length c (vals : list cell) (rs : list row) :
  length vals = length rs → length (set_col c vals rs) = length rs.
Proof. intros H. unfold set_col. rewrite length_zip_with. lia. Qed.

Lemma set_col_widths n c (vals : list cell) (rs : list row) :
  Forall (λ r : row, length r = n) rs →
  Forall (λ r : row, length r = n) (set_col c vals rs).
Proof.
  intros H. revert vals. induction H as [|r rs Hr _ IH]; intros [|v vals];
    simpl; try constructor; [by rewrite length_insert|apply IH].
Qed.

Lemma get_set_col_eq n c (vals : list cell) (rs : list row) :
  c < n → Forall (λ r : row, length r = n) rs → length vals = length rs →
  get_col c (set_col c vals rs) = vals.
Proof.
  intros Hc H. revert vals. induction H as [|r rs Hr _ IH]; intros [|v vals] Hl;
    try done. simpl in *. f_equal; [|apply IH; lia].
  apply list_lookup_total_insert_eq. lia.
Qed.

Lemma get_set_col_ne c c' (vals : list cell) (rs : list row) :
  c ≠ c' → length vals = length rs →
  get_col c' (set_col c vals rs) = get_col c' rs.
Proof.
  intros Hc. revert vals. induction rs as [|r rs IH]; intros [|v vals] Hl;
    try done. simpl in *. f_equal; [|apply IH; lia].
  by apply list_lookup_total_insert_ne.
Qed.

(** What the loop over the first [k] columns has done. *)
Lemma ffill_columns_cols n k (rs : list row) :
  Forall (λ r : row, length r = n) rs → k ≤ n →
  Forall (λ r : row, length r = n) (ffill_columns k rs) ∧
  length (ffill_columns k rs) = length rs ∧
  ∀ c, get_col c (ffill_columns k rs)
       = if decide (c < k) then ffill_column (get_col c rs) else get_col c rs.
Proof.
  intros Hrs. induction k as [|k IH]; intros Hk.
  - split; [done|]. split; [done|]. intros c.
    destruct (decide (c < 0)); [lia|done].
  - destruct IH as (IH1 & IH2 & IH3); [lia|].
    unfold ffill_columns in *. rewrite seq_S, foldl_app. simpl.
    set (T := foldl _ rs (seq 0 k)) in *.
    assert (length (ffill_column (get_col k T)) = length T) as Hl
      by by rewrite ffill_column_length, get_col_length.
    split; [by apply set_col_widths|].
    split; [by rewrite set_col_length|].
    intros c. destruct (decide (c = k)) as [->|Hne].
    + rewrite (get_set_col_eq n) by (done || lia).
      rewrite IH3. destruct (decide (k < k)); [lia|].
      destruct (decide (k < S k)); [done|lia].
    + rewrite get_set_col_ne by done. rewrite IH3.
      repeat case_decide; try done; lia.
Qed.

(** Two tables of the same shape with the same columns are the same. *)
Lemma table_ext n (A B : list row) :
  Forall (λ r : row, length r = n) A → Forall (λ r : row, length r = n) B →
  length A = length B →
  (∀ c, c < n → get_col c A = get_col c B) → A = B.
Proof.
  intros HA. revert B. induction HA as [|a A Ha _ IH]; intros [|b B] HB Hl Hc;
    try done.
  apply Forall_cons in HB as [Hb HB]. simpl in Hl. f_equal.
  - apply list_eq. intros c. destruct (decide (c < n)) as [Hlt|Hge].
    + rewrite (list_lookup_lookup_total_lt a), (list_lookup_lookup_total_lt b)
        by lia. f_equal.
      specialize (Hc c Hlt). by injection Hc.
    + by rewrite !lookup_ge_None_2 by lia.
  - apply IH; [done|lia|]. intros c Hlt. specialize (Hc c Hlt).
    by injection Hc.
Qed.

Lemma ffill_columns_idemp n (rs : list row) :
  Forall (λ r : row, length r = n) rs →
  ffill_columns n (ffill_columns n rs) = ffill_columns n rs.
Proof.
  intros Hrs.
  destruct (ffill_columns_cols n n rs Hrs (le_n n)) as (H1 & H2 & H3).
  destruct (ffill_columns_cols n n _ H1 (le_n n)) as (K1 & K2 & K3).
  apply (table_ext n); [done..|].
  intros c Hc. rewrite K3, H3. destruct (decide (c < n)); [|lia].
  apply ffill_column_idemp.
Qed.

(** ** The reconstructor *)

Lemma fill_rows_lookup n g prev_row (rs : list row) i (r : row) :
  rs !! i = Some r →
  ∃ prev, fill_rows n g prev_row rs !! i = Some (fill_step n g prev r).
Proof.
  revert prev_row i. induction rs as [|r0 rs IH]; intros prev_row i H; [done|].
  destruct i as [|i]; simpl in *.
  - injection H as ->. by eexists.
  - by apply IH.
Qed.

Lemma carries_code_step n g before prev_row (r : row) :
  carries_code g before prev_row → prev_fits n prev_row → length r = n →
  carries_code g (before ++ [r]) (Some (fill_step n g prev_row r)).
Proof.
  intros Hinv Hfit Hr src H. unfold last_coded_row in H.
  rewrite List.filter_app in H. simpl in H. unfold fill_step.
  destruct (isna_or_empty (r !!! g)) eqn:E; simpl in H.
  - rewrite app_nil_r in H. destruct (Hinv src H) as (p & -> & Hp).
    eexists. split; [done|]. specialize (Hfit p eq_refl).
    rewrite fill_from_merge by done.
    rewrite merge_rows_lookup_total by lia. by rewrite E.
  - rewrite last_snoc in H. injection H as <-. by eexists.
Qed.

Lemma fill_rows_code n g before prev_row (rs : list row) i (r src : row) :
  carries_code g before prev_row → prev_fits n prev_row →
  Forall (λ r : row, length r = n) rs →
  rs !! i = Some r → isna_or_empty (r !!! g) = true →
  last_coded_row g (before ++ take i rs) = Some src →
  ∃ out_r : row, fill_rows n g prev_row rs !! i = Some out_r ∧
                 out_r !!! g = src !!! g.
Proof.
  intros Hinv Hfit Hrs. revert before prev_row i Hinv Hfit.
  induction Hrs as [|r0 rs Hr0 _ IH]; intros before prev_row i Hinv Hfit Hi E Hl;
    [done|].
  destruct i as [|i]; simpl in *.
  - injection Hi as ->. rewrite app_nil_r in Hl.
    destruct (Hinv src Hl) as (p & -> & Hp). specialize (Hfit p eq_refl).
    eexists. split; [done|]. unfold fill_step. rewrite E.
    rewrite fill_from_merge by done.
    rewrite merge_rows_lookup_total by lia. by rewrite E.
  - apply (IH (before ++ [r0])); try done.
    + by apply carries_code_step.
    + intros p [= <-]. by apply fill_step_length.
    + by rewrite <- app_assoc.
Qed.

Example fill_two_groups :
  rows (fill_empty_class_codes (Some 0) two_groups)
  = [ [Some (text "A"); Some (text "1")];
      [Some (text "A"); Some (text "1")];
      [Some (text "B"); Some (text "2")] ].
Proof. reflexivity. Qed.

(** C2. Running [fill_empty_class_codes] on its own output gives that
    output again, with a class code column and without one, for every
    table with distinct labels and one cell per column in every row. *)
Theorem fill_empty_class_codes_idempotent
    (class_code_col : option nat) (df : DataFrame) :
  wf_df df →
  fill_empty_class_codes class_code_col
    (fill_empty_class_codes class_code_col df)
  = fill_empty_class_codes class_code_col df.
Proof.
  intros [_ Hwf]. unfold rectangular in Hwf.
  destruct class_code_col as [g|]; unfold fill_empty_class_codes; simpl;
    f_equal.
  - by apply fill_rows_idemp.
  - by apply ffill_columns_idemp.
Qed.

Lemma fill_empty_class_codes_idempotent_witness :
  fill_empty_class_codes None (fill_empty_class_codes None late_value)
  = fill_empty_class_codes None late_value.
Proof.
  apply (fill_empty_class_codes_idempotent None late_value).
  solve_wf.
Defined.

(** C6. For every table with distinct labels and one cell per column
    in every row, the first row comes out of [fill_empty_class_codes]
    with its empty cells empty and its other cells as they were, with a
    class code column and without one; with a class code column the row
    is the very same. *)
Theorem first_row_kept
    (class_code_col : option nat) (df : DataFrame) (r : row) :
  wf_df df → rows df !! 0 = Some r →
  (∃ r' : row,
     rows (fill_empty_class_codes class_code_col df) !! 0 = Some r' ∧
     length r' = length r ∧
     ∀ c : nat,
       (isna_or_empty (r !!! c) = true → isna_or_empty (r' !!! c) = true) ∧
       (isna_or_empty (r !!! c) = false → r' !!! c = r !!! c)) ∧
  (∀ g : nat, rows (fill_empty_class_codes (Some g) df) !! 0 = Some r).
Proof.
  intros [_ Hwf] H0. unfold rectangular in Hwf.
  destruct df as [cols rs]. simpl in *.
  destruct rs as [|r0 rest]; [done|]. injection H0 as ->.
  assert (∀ g, fill_rows (length cols) g None (r :: rest) !! 0 = Some r)
    as Hg.
  { intros g. simpl. unfold fill_step. by destruct (isna_or_empty _). }
  split; [|exact Hg].
  destruct class_code_col as [g|]; simpl.
  - exists r. split; [apply Hg|]. split; [done|]. by intros c.
  - destruct (ffill_columns_cols (length cols) (length cols) (r :: rest) Hwf
                (le_n _)) as (H1 & H2 & H3).
    destruct (ffill_columns _ _) as [|r' T]; [done|].
    apply Forall_cons in H1 as [Hr' _]. apply Forall_cons in Hwf as [Hr _].
    exists r'. split; [done|]. split; [lia|]. intros c.
    destruct (decide (c < length cols)) as [Hc|Hc].
    + specialize (H3 c). destruct (decide (c < length cols)); [|lia].
      apply (f_equal (λ l, l !! 0)) in H3.
      simpl in H3. rewrite ffill_column_cons in H3. injection H3 as ->.
      destruct (isna_or_empty (r !!! c)) eqn:E; split; done.
    + rewrite !list_lookup_total_alt, !lookup_ge_None_2 by lia. by split.
Qed.

Lemma first_row_kept_witness :
  ∃ r' : row,
    rows (fill_empty_class_codes None late_value) !! 0 = Some r' ∧
    isna_or_empty (r' !!! 1) = true ∧ r' !!! 0 = Some (text "A").
Proof.
  destruct (first_row_kept None late_value [Some (text "A"); Some []])
    as [(r' & H1 & _ & H2) _].
  - solve_wf.
  - done.
  - exists r'. split; [done|]. split.
    + by apply (H2 1).
    + by apply (H2 0).
Defined.

(** C1, as the code has it, for every table with distinct labels and
    one cell per column in every row.  With a class code column, the
    first row and every row whose class code is not empty come out as
    read.  A
    later row whose class code is empty as read takes each of its empty
    cells, the class code among them, from the row just before it as
    that row stands in the output, be its own class code empty as read
    or not; its other cells stay.  Its class code is thereby the one of
    the last row before it whose class code was not empty as read, when
    there is such a row. *)
Theorem fill_from_previous_row (g : nat) (df : DataFrame) :
  wf_df df →
  (∀ r : row,
     rows df !! 0 = Some r →
     rows (fill_empty_class_codes (Some g) df) !! 0 = Some r) ∧
  (∀ (i : nat) (r : row),
     rows df !! i = Some r → isna_or_empty (r !!! g) = false →
     rows (fill_empty_class_codes (Some g) df) !! i = Some r) ∧
  (∀ (i : nat) (r : row),
     rows df !! S i = Some r → isna_or_empty (r !!! g) = true →
     ∃ p out_r : row,
       rows (fill_empty_class_codes (Some g) df) !! i = Some p ∧
       rows (fill_empty_class_codes (Some g) df) !! S i = Some out_r ∧
       length out_r = length r ∧
       ∀ c : nat,
         out_r !!! c = if isna_or_empty (r !!! c) then p !!! c else r !!! c) ∧
  (∀ (i : nat) (r src : row),
     rows df !! i = Some r → isna_or_empty (r !!! g) = true →
     last_coded_row g (take i (rows df)) = Some src →
     ∃ out_r : row,
       rows (fill_empty_class_codes (Some g) df) !! i = Some out_r ∧
       out_r !!! g = src !!! g).
Proof.
  intros [_ Hwf]. unfold rectangular in Hwf.
  destruct df as [cols rs]. simpl in *.
  set (n := length cols) in *.
  split; [|split; [|split]]; cycle 3.
  { intros i r src H E Hl.
    by apply (fill_rows_code n g [] None rs i r src). }
  - intros r H. destruct rs as [|r0 rest]; [done|]. injection H as ->.
    simpl. unfold fill_step. by destruct (isna_or_empty _).
  - intros i r H E.
    destruct (fill_rows_lookup n g None rs i r H) as [prev ->].
    unfold fill_step. by rewrite E.
  - intros i r H E.
    destruct (fill_rows_lookup_S n g None rs i r H) as (p & Hp & Hr).
    assert (length p = n) as Hlp.
    { assert (prev_fits n None) as Hnone by by intros ?.
      pose proof (fill_rows_Forall_length n g None rs Hnone Hwf) as Hall.
      rewrite Forall_forall in Hall. apply Hall.
      by eapply list_elem_of_lookup_2. }
    assert (length r = n) as Hlr.
    { rewrite Forall_forall in Hwf. apply Hwf.
      by eapply list_elem_of_lookup_2. }
    exists p, (merge_rows p r). split; [done|].
    split.
    { rewrite Hr. unfold fill_step. rewrite E. f_equal.
      by apply fill_from_merge. }
    split; [apply merge_rows_length; lia|].
    intros c. apply merge_rows_lookup_total. lia.
Qed.

Lemma fill_from_previous_row_witness :
  rows (fill_empty_class_codes (Some 0) late_value) !! 2
  = Some [Some (text "A"); Some (text "1")].
Proof.
  assert (wf_df late_value) as Hwf by solve_wf.
  destruct (proj1 (proj2 (proj2 (fill_from_previous_row 0 late_value Hwf)))
              1 [Some []; Some []] eq_refl eq_refl)
    as (p & out_r & Hp & -> & Hl & Hc).
  injection Hp as <-.
  pose proof (Hc 0) as H0. pose proof (Hc 1) as H1.
  destruct out_r as [|a [|b [|]]]; try done.
  simpl in H0, H1. by subst.
Defined.

(** C1 as stated fails on [late_value]: the third row has an empty
    class code and an empty [x]; the last row before it whose class code
    was not empty as read is the first, whose [x] is empty; yet the
    third row comes out with the [x] of the second row. *)
Lemma late_value_not_from_leader :
  ¬ copies_from_last_coded_row 0 (rows late_value)
      (rows (fill_empty_class_codes (Some 0) late_value)).
Proof.
  intros H.
  specialize (H 2 [Some []; Some []] [Some (text "A"); Some []]
                [Some (text "A"); Some (text "1")]
                eq_refl eq_refl eq_refl eq_refl 1 eq_refl).
  by vm_compute in H.
Qed.

(** ** Instances *)

Lemma extract_time_12_to_24_witness :
  extract_time (Some (text "9:30 PM")) = Ok (Some 2130%Z).
Proof.
  destruct (proj1 extract_time_12_to_24 (text "9:30 PM") (text "9")
              (Some (text "30")) (Some (text "PM")))
    as (h & m & h24 & Hh & Hm & Hpm & _ & _ & _ & _ & ->);
    [by vm_compute|].
  vm_compute in Hh. injection Hh as <-.
  vm_compute in Hm. injection Hm as <-.
  rewrite Hpm; [done|by vm_compute|done].
Defined.

Lemma too_few_time_tokens_witness :
  extract_start_end_times (Some (text "Th 9AM")) = Ok (None, None).
Proof.
  apply (proj1 too_few_time_tokens (text "Th 9AM")); vm_compute; lia.
Defined.

(** * Further properties *)

(** ** Values of the parsers *)

Lemma dict_lookup_elem (d : list (str * Z)) k v :
  dict_lookup d k = Some v → (k, v) ∈ d.
Proof.
  unfold dict_lookup. destruct (find _ d) as [[k' v']|] eqn:E; [|done].
  intros [= <-]. apply find_some in E as [Hin Heq].
  unfold str_eqb in Heq. apply bool_decide_eq_true in Heq. simpl in Heq.
  subst k'. by apply list_elem_of_In.
Qed.

Lemma day_mapping_range k v : (k, v) ∈ day_mapping → (1 ≤ v ≤ 7)%Z.
Proof.
  intros Hin.
  assert (forallb (λ kv : str * Z, (1 <=? kv.2)%Z && (kv.2 <=? 7)%Z)
            day_mapping = true) as Hall by by vm_compute.
  rewrite forallb_forall in Hall.
  apply list_elem_of_In, Hall in Hin. simpl in Hin. lia.
Qed.

(** X1. A day that [extract_day] returns lies between 1 and 7, and the
    text then starts with one to three ASCII letters followed by a
    blank, the letters being, in lower case, a key of the lexicon with
    that day. *)
Theorem extract_day_found (x : cell) (d : Z) :
  extract_day x = Ok (Some d) →
  (1 ≤ d ≤ 7)%Z ∧
  ∃ (s g : str) (c : N),
    x = Some s ∧ (g ++ [c]) `prefix_of` s ∧ 1 ≤ length g ≤ 3 ∧
    Forall (λ a, Char.is_ascii_alpha a = true) g ∧
    Char.is_space c = true ∧
    dict_lookup day_mapping (py_lower g) = Some d.
Proof.
  rewrite extract_day_exact. intros [= H].
  destruct x as [[|c0 s]|]; try done. unfold exact_day in H.
  destruct (Re.day_abbr (c0 :: s)) as [g|] eqn:Eg; [|done].
  cbn [mbind option_bind] in H.
  apply day_abbr_Some in Eg as (Hlen & Hg & Hal & c & Hc & Hsp).
  split.
  { apply dict_lookup_elem in H. by eapply day_mapping_range. }
  exists (c0 :: s), g, c. split; [done|]. split; [|done].
  exists (drop (S (length g)) (c0 :: s)).
  rewrite <- (take_drop_middle (c0 :: s) (length g) c Hc) at 1.
  rewrite <- Hg. by rewrite <- app_assoc.
Qed.

Lemma extract_day_found_witness :
  ∃ (s g : str) (c : N),
    Some (text "Fri 2PM - 4PM") = Some s ∧ (g ++ [c]) `prefix_of` s ∧
    dict_lookup day_mapping (py_lower g) = Some 5%Z.
Proof.
  destruct (extract_day_found (Some (text "Fri 2PM - 4PM")) 5)
    as (_ & s & g & c & H1 & H2 & _ & _ & _ & H3); [by vm_compute|].
  by exists s, g, c.
Defined.

Lemma to_decimal_range c d : Char.to_decimal c = Some d → (0 ≤ d ≤ 9)%Z.
Proof.
  unfold Char.to_decimal.
  destruct (find _ Char.decimal_zeros) as [z|] eqn:E; [|done].
  intros [= <-]. apply find_some in E as [_ E].
  apply andb_true_iff in E as [E1 E2].
  apply N.leb_le in E1. apply N.ltb_lt in E2. lia.
Qed.

Lemma span_upto_length p n s : length (Re.span_upto p n s).1 ≤ n.
Proof.
  revert s. induction n as [|n IH]; intros [|c s]; simpl; try lia.
  destruct (p c); simpl; [|lia].
  specialize (IH s). destruct (Re.span_upto p n s). simpl in *. lia.
Qed.

(** [int] of one or two decimal digits. *)
Lemma py_int_two_digits s :
  s ≠ [] → length s ≤ 2 → Forall (λ c, Char.is_digit c = true) s →
  ∃ z, py_int s = Ok z ∧ (0 ≤ z ≤ 99)%Z.
Proof.
  intros Hne Hlen Hall.
  destruct s as [|a [|b [|]]]; try done; simpl in Hlen; try lia.
  - apply Forall_cons in Hall as [Ha _]. unfold Char.is_digit in Ha.
    unfold py_int. simpl.
    destruct (Char.to_decimal a) as [da|] eqn:Ea; [|done].
    apply to_decimal_range in Ea. unbind. eexists. split; [done|]. lia.
  - apply Forall_cons in Hall as [Ha Hall].
    apply Forall_cons in Hall as [Hb _]. unfold Char.is_digit in Ha, Hb.
    unfold py_int. simpl.
    destruct (Char.to_decimal a) as [da|] eqn:Ea; [|done].
    destruct (Char.to_decimal b) as [db|] eqn:Eb; [|done].
    apply to_decimal_range in Ea, Eb. unbind. eexists. split; [done|]. lia.
Qed.

Lemma time_groups_hour_length s g1 g2 g3 :
  Re.time_groups s = Some (g1, g2, g3) →
  length g1 ≤ 2 ∧ ∀ m, g2 = Some m → length m = 2.
Proof.
  unfold Re.time_groups.
  pose proof (span_upto_length Char.is_digit 2 s) as Hl.
  destruct (Re.span_upto Char.is_digit 2 s) as [d1 s1]. simpl in Hl.
  destruct d1 as [|c d1]; [done|].
  destruct (Re.opt_char _ s1) as [? s2].
  destruct (Re.two_digits s2) as [o2 s3] eqn:E2.
  destruct (Re.span Char.is_space s3) as [? s4].
  destruct (Re.meridiem s4) as [o3 s5].
  intros [= <- <- <-]. split; [done|].
  intros m ->. unfold Re.two_digits in E2.
  destruct s2 as [|a [|b r]]; try done.
  destruct (Char.is_digit a && Char.is_digit b); by simplify_eq.
Qed.

(** What [extract_time] returns once the pattern is found. *)
Lemma extract_time_value s g1 g2 g3 :
  Re.search Re.time_groups s = Some (g1, g2, g3) →
  ∃ h m : Z,
    (0 ≤ h ≤ 99)%Z ∧ (0 ≤ m ≤ 99)%Z ∧
    extract_time (Some s)
    = Ok (Some (to_24h (py_lower <$> g3) h * 100 + m)%Z).
Proof.
  intros E.
  assert (s ≠ []) as Hs by (intros ->; by vm_compute in E).
  destruct s as [|c s]; [done|]. clear Hs.
  unfold extract_time. rewrite E.
  apply search_Some in E as (pre & s' & _ & E).
  pose proof (time_groups_hour_length _ _ _ _ E) as [L1 L2].
  apply time_groups_shape in E as (H1 & H2 & H3 & _).
  destruct (py_int_two_digits g1 H1 L1 H2) as (h & -> & Hh). unbind.
  destruct g2 as [[|c' m]|].
  - specialize (L2 _ eq_refl). done.
  - destruct (H3 _ eq_refl) as [Hne Hd].
    destruct (py_int_two_digits (c' :: m) Hne) as (mi & -> & Hmi);
      [by rewrite (L2 _ eq_refl)|done|].
    unbind. by exists h, mi.
  - unbind. exists h, 0%Z. repeat split; try done; lia.
Qed.

Lemma to_24h_range ampm h : (0 ≤ h ≤ 99)%Z → (0 ≤ to_24h ampm h ≤ 99)%Z.
Proof.
  intros Hh. unfold to_24h.
  destruct (_ && (h <? 12)%Z) eqn:E1.
  - apply andb_true_iff in E1 as [_ E1]. apply Z.ltb_lt in E1. lia.
  - destruct (_ && (h =? 12)%Z); lia.
Qed.

(** X2. A time that [extract_time] returns lies between 0 and 9999: it
    is not held below 2400; ["99:99"] gives 9999. *)
Theorem extract_time_range :
  (∀ (x : cell) (t : Z), extract_time x = Ok (Some t) → (0 ≤ t ≤ 9999)%Z) ∧
  extract_time (Some (text "99:99")) = Ok (Some 9999%Z).
Proof.
  split; [|by vm_compute].
  intros x t H. destruct x as [[|c s]|]; try done.
  destruct (Re.search Re.time_groups (c :: s)) as [[[g1 g2] g3]|] eqn:E.
  - destruct (extract_time_value _ _ _ _ E) as (h & m & Hh & Hm & Ht).
    rewrite Ht in H. injection H as <-.
    pose proof (to_24h_range (py_lower <$> g3) h Hh). lia.
  - unfold extract_time in H. by rewrite E in H.
Qed.

Lemma extract_time_range_witness :
  extract_time (Some (text "12:15PM")) = Ok (Some 1215%Z) ∧
  (0 ≤ 1215 ≤ 9999)%Z.
Proof.
  assert (extract_time (Some (text "12:15PM")) = Ok (Some 1215%Z)) as H
    by by vm_compute.
  split; [exact H|].
  exact (proj1 extract_time_range (Some (text "12:15PM")) 1215%Z H).
Defined.

(** ** Start and end times *)

Lemma search_found {A} (m : list N → option A) pre s r :
  m s = Some r → ∃ r', Re.search m (pre ++ s) = Some r'.
Proof.
  intros H. induction pre as [|c pre IH]; simpl.
  - destruct s; simpl; rewrite H; by eexists.
  - destruct (m (c :: pre ++ s)); [by eexists|exact IH].
Qed.

Lemma span_upto_digit_cons n c s :
  Char.is_digit c = true → ∃ d r, Re.span_upto Char.is_digit (S n) (c :: s) = (c :: d, r).
Proof.
  intros H. simpl. rewrite H. destruct (Re.span_upto _ n s). by eexists _, _.
Qed.

Lemma span_upto_cons_inv p n s c d r :
  Re.span_upto p n s = (c :: d, r) → ∃ s', s = c :: s'.
Proof.
  destruct n as [|n], s as [|c' s']; simpl; try done.
  destruct (p c'); [|done]. destruct (Re.span_upto p n s').
  intros [= -> _ _]. by eexists.
Qed.

(** Both time patterns match just where a decimal digit stands. *)
Lemma time_groups_at_digit c s :
  Char.is_digit c = true → ∃ g, Re.time_groups (c :: s) = Some g.
Proof.
  intros H. unfold Re.time_groups.
  destruct (span_upto_digit_cons 1 c s H) as (d & r & ->).
  destruct (Re.opt_char _ r) as [? s2]. destruct (Re.two_digits s2) as [? s3].
  destruct (Re.span _ s3) as [? s4]. destruct (Re.meridiem s4).
  by eexists.
Qed.

Lemma time_pattern_digit s g :
  Re.time_pattern s = Some g →
  ∃ c r r', s = c :: r ∧ g.1 = c :: r' ∧ Char.is_digit c = true.
Proof.
  unfold Re.time_pattern.
  pose proof (span_upto_digits 2 s) as Hd.
  destruct (Re.span_upto Char.is_digit 2 s) as [d1 s1] eqn:E. simpl in Hd.
  destruct d1 as [|c d1]; [done|].
  destruct (Re.opt_char _ s1) as [sep s2].
  destruct (Re.span_upto _ 2 s2) as [d2 s3].
  destruct (Re.span _ s3) as [ws s4]. destruct (Re.meridiem s4) as [ap ?].
  intros [= <-]. apply Forall_cons in Hd as [Hc _].
  apply span_upto_cons_inv in E as [r ->]. by eexists _, _, _.
Qed.

Lemma extract_time_at_digit c s :
  Char.is_digit c = true → ∃ t, extract_time (Some (c :: s)) = Ok (Some t).
Proof.
  intros H. destruct (time_groups_at_digit c s H) as [g Hg].
  destruct (search_found Re.time_groups [] (c :: s) g Hg) as [[[g1 g2] g3] E].
  change ([] ++ c :: s) with (c :: s) in E.
  destruct (extract_time_value _ _ _ _ E) as (h & m & _ & _ & ->).
  by eexists.
Qed.

Lemma has_time_pattern_extract part :
  has_time_pattern part = true → ∃ t, extract_time (Some part) = Ok (Some t).
Proof.
  unfold has_time_pattern.
  destruct (Re.search Re.time_pattern part) as [g|] eqn:E; [|done]. intros _.
  apply search_Some in E as (pre & s' & -> & E).
  apply time_pattern_digit in E as (c & r & _ & -> & _ & Hc).
  destruct (time_groups_at_digit c r Hc) as [g' Hg].
  destruct (search_found Re.time_groups pre (c :: r) g' Hg)
    as [[[g1 g2] g3] E].
  destruct (extract_time_value _ _ _ _ E) as (h & m & _ & _ & ->).
  by eexists.
Qed.

Lemma findall_go_elem k s g :
  g ∈ Re.findall_go k s → ∃ s', Re.time_pattern s' = Some g.
Proof.
  revert k. induction s as [|c s IH]; intros k; simpl; [by intros ?%elem_of_nil|].
  destruct k as [|k]; [|apply IH].
  destruct (Re.time_pattern (c :: s)) as [g'|] eqn:E; [|apply IH].
  intros [->|H]%elem_of_cons; [by eexists|by eapply IH].
Qed.

Lemma findall_extract s g :
  g ∈ Re.findall s → ∃ t, extract_time (Some g.1) = Ok (Some t).
Proof.
  intros (s' & H)%findall_go_elem.
  apply time_pattern_digit in H as (c & r & r' & _ & -> & Hc).
  by apply extract_time_at_digit.
Qed.

(** X3. [extract_start_end_times] returns both times or neither: a
    start time never comes without an end time. *)
Theorem start_end_both_or_neither
    (x : cell) (start_time end_time : option Z) :
  extract_start_end_times x = Ok (start_time, end_time) →
  (start_time = None ∧ end_time = None) ∨
  (∃ a b : Z, start_time = Some a ∧ end_time = Some b).
Proof.
  destruct x as [[|c s]|]; [intros [= <- <-]; by left..| |intros [= <- <-]; by left].
  unfold extract_start_end_times.
  case_bool_decide as H1.
  - destruct (split_time_parts (c :: s)) as [|p0 [|p1 ps]] eqn:E;
      simpl in H1; try lia.
    assert (has_time_pattern p0 = true ∧ has_time_pattern p1 = true)
      as [Hp0 Hp1].
    { unfold split_time_parts in E. case_bool_decide; [|done].
      assert (p0 ∈ List.filter has_time_pattern (Re.split (c :: s))) as I0
        by (rewrite E; repeat constructor).
      assert (p1 ∈ List.filter has_time_pattern (Re.split (c :: s))) as I1
        by (rewrite E; repeat constructor).
      apply list_elem_of_In, filter_In in I0 as [_ I0].
      apply list_elem_of_In, filter_In in I1 as [_ I1]. done. }
    destruct (has_time_pattern_extract p0 Hp0) as [a Ha].
    destruct (has_time_pattern_extract p1 Hp1) as [b Hb].
    change (py_index (p0 :: p1 :: ps) 0) with (Ok p0).
    change (py_index (p0 :: p1 :: ps) 1) with (Ok p1).
    unbind. rewrite Ha. unbind. rewrite Hb. unbind.
    intros [= <- <-]. right. by exists a, b.
  - case_bool_decide as H2; [|intros [= <- <-]; by left].
    destruct (Re.findall (c :: s)) as [|t0 [|t1 ts]] eqn:E;
      simpl in H2; try lia.
    destruct (findall_extract (c :: s) t0) as [a Ha]; [rewrite E; repeat constructor|].
    destruct (findall_extract (c :: s) t1) as [b Hb]; [rewrite E; repeat constructor|].
    change (py_index (t0 :: t1 :: ts) 0) with (Ok t0).
    change (py_index (t0 :: t1 :: ts) 1) with (Ok t1).
    unbind. rewrite Ha. unbind. rewrite Hb. unbind.
    intros [= <- <-]. right. by exists a, b.
Qed.

Lemma start_end_both_or_neither_witness :
  (Some 900%Z = None ∧ Some 1000%Z = None) ∨
  (∃ a b : Z, Some 900%Z = Some a ∧ Some 1000%Z = Some b).
Proof.
  apply (start_end_both_or_neither (Some (text "9am to 10am"))).
  by vm_compute.
Defined.

(** ** Splitting at a dash *)

Lemma span_app_run p (w rest : str) :
  Forall (λ c, p c = true) w → (∀ c, head rest = Some c → p c = false) →
  Re.span p (w ++ rest) = (w, rest).
Proof.
  intros Hw Hr. induction Hw as [|c w Hc _ IH]; simpl.
  - destruct rest as [|c rest]; [done|]. simpl. by rewrite (Hr c eq_refl).
  - by rewrite Hc, IH.
Qed.

Lemma span_suffix p (s : str) : ∃ a, s = a ++ (Re.span p s).2.
Proof.
  induction s as [|c s [a IH]]; simpl; [by exists []|].
  destruct (p c); [|by exists []].
  destruct (Re.span p s) as [w r]. simpl in *. exists (c :: a). by rewrite IH at 1.
Qed.

Lemma delimiter_nodash (s : str) :
  Forall (λ c, Char.is_dash c = false) s → Re.delimiter s = None.
Proof.
  intros Hs. unfold Re.delimiter.
  destruct (span_suffix Char.is_space s) as [a Ha].
  destruct (Re.span Char.is_space s) as [w1 s1]. simpl in Ha.
  destruct s1 as [|c s2]; [done|].
  rewrite Ha in Hs. apply Forall_app in Hs as [_ Hs].
  apply Forall_cons in Hs as [Hc _]. by rewrite Hc.
Qed.

Lemma delimiter_cons_space c (s : str) :
  Char.is_space c = true → Re.delimiter s = None → Re.delimiter (c :: s) = None.
Proof.
  unfold Re.delimiter. simpl. intros ->.
  destruct (Re.span Char.is_space s) as [w1 s1].
  destruct s1 as [|d s2]; [done|].
  destruct (Char.is_dash d); [|done]. by destruct (Re.span Char.is_space s2).
Qed.

(** No match starts inside a dash-free text that does not end with a
    blank, whatever follows it. *)
Lemma delimiter_inside (a rest : str) :
  a ≠ [] → Forall (λ c, Char.is_dash c = false) a →
  (∀ c, last a = Some c → Char.is_space c = false) →
  Re.delimiter (a ++ rest) = None.
Proof.
  intros Hne Hd Hl. induction a as [|c a IH]; [done|].
  apply Forall_cons in Hd as [Hc Hd].
  destruct (Char.is_space c) eqn:E.
  - destruct a as [|c' a]; [by rewrite (Hl c eq_refl) in E|].
    apply delimiter_cons_space; [done|]. apply IH; [done|done|].
    intros x Hx. apply Hl. by rewrite last_cons_cons.
  - unfold Re.delimiter. simpl. rewrite E. by rewrite Hc.
Qed.

Lemma delimiter_at (w1 w2 b : str) d :
  Forall (λ c, Char.is_space c = true) w1 → Char.is_dash d = true →
  Forall (λ c, Char.is_space c = true) w2 →
  (∀ c, head b = Some c → Char.is_space c = false) →
  Re.delimiter (w1 ++ d :: w2 ++ b) = Some (length w1 + 1 + length w2).
Proof.
  intros H1 Hd H2 Hb. unfold Re.delimiter.
  rewrite (span_app_run _ w1 (d :: w2 ++ b)); [|done|].
  - rewrite Hd. by rewrite (span_app_run _ w2 b).
  - intros c [= <-]. by apply dash_not_space.
Qed.

Lemma split_go_skip (u v piece : str) :
  Re.split_go (length u) piece (u ++ v) = Re.split_go 0 piece v.
Proof. induction u as [|c u IH]; [done|]. exact IH. Qed.

Lemma split_go_nodash (piece b : str) :
  Forall (λ c, Char.is_dash c = false) b → Re.split_go 0 piece b = [piece ++ b].
Proof.
  intros Hb. revert piece. induction Hb as [|c b Hc Hb IH]; intros piece.
  - by rewrite app_nil_r.
  - simpl. rewrite delimiter_nodash by by constructor.
    rewrite IH. by rewrite <- app_assoc.
Qed.

Lemma split_go_inside (piece a rest : str) :
  Forall (λ c, Char.is_dash c = false) a →
  (∀ c, last a = Some c → Char.is_space c = false) →
  Re.split_go 0 piece (a ++ rest) = Re.split_go 0 (piece ++ a) rest.
Proof.
  intros Hd Hl. revert piece. induction a as [|c a IH]; intros piece.
  - by rewrite app_nil_r.
  - change ((c :: a) ++ rest) with (c :: (a ++ rest)). cbn [Re.split_go].
    change (c :: (a ++ rest)) with ((c :: a) ++ rest).
    rewrite delimiter_inside by done.
    apply Forall_cons in Hd as [_ Hd]. rewrite IH; [by rewrite <- app_assoc|done|].
    intros x Hx. apply Hl. destruct a; [done|]. by rewrite last_cons_cons.
Qed.

(** Two dash-free texts around one dash with blanks: the split gives
    the two texts. *)
Lemma split_at_dash (a b w1 w2 : str) d :
  Forall (λ c, Char.is_dash c = false) a →
  Forall (λ c, Char.is_dash c = false) b →
  (∀ c, last a = Some c → Char.is_space c = false) →
  (∀ c, head b = Some c → Char.is_space c = false) →
  Forall (λ c, Char.is_space c = true) w1 →
  Forall (λ c, Char.is_space c = true) w2 →
  Char.is_dash d = true →
  Re.split (a ++ w1 ++ d :: w2 ++ b) = [a; b].
Proof.
  intros Ha Hb Hla Hhb H1 H2 Hd. unfold Re.split.
  rewrite split_go_inside by done. simpl.
  pose proof (delimiter_at w1 w2 b d H1 Hd H2 Hhb) as Hdel.
  destruct (w1 ++ d :: w2 ++ b) as [|c0 T] eqn:ET.
  { by destruct w1. }
  cbn [Re.split_go]. rewrite Hdel. f_equal.
  assert (∃ u, T = u ++ b ∧ length u = length w1 + length w2) as (u & -> & Hu).
  { destruct w1 as [|x w1]; simpl in ET.
    - injection ET as <- <-. by exists w2.
    - injection ET as <- <-. exists (w1 ++ d :: w2).
      split; [by rewrite <- app_assoc|]. rewrite length_app. simpl. lia. }
  replace (pred (length w1 + 1 + length w2)) with (length u) by lia.
  rewrite split_go_skip. by rewrite split_go_nodash.
Qed.

(** X4. For a text made of two dash-free parts around a dash with
    blanks about it, the first part not ending and the second not
    starting with a blank, and each holding a digit: the start time is
    what [extract_time] reads in the first part and the end time what it
    reads in the second. *)
Theorem start_end_of_dashed (a b w1 w2 : str) (d : N) :
  Forall (λ c, Char.is_dash c = false) a →
  Forall (λ c, Char.is_dash c = false) b →
  (∀ c, last a = Some c → Char.is_space c = false) →
  (∀ c, head b = Some c → Char.is_space c = false) →
  Forall (λ c, Char.is_space c = true) w1 →
  Forall (λ c, Char.is_space c = true) w2 →
  Char.is_dash d = true →
  has_time_pattern a = true → has_time_pattern b = true →
  ∃ ta tb : Z,
    extract_time (Some a) = Ok (Some ta) ∧
    extract_time (Some b) = Ok (Some tb) ∧
    extract_start_end_times (Some (a ++ w1 ++ d :: w2 ++ b))
    = Ok (Some ta, Some tb).
Proof.
  intros Ha Hb Hla Hhb H1 H2 Hd Hta Htb.
  destruct (has_time_pattern_extract a Hta) as [ta Ea].
  destruct (has_time_pattern_extract b Htb) as [tb Eb].
  exists ta, tb. split; [done|]. split; [done|].
  pose proof (split_at_dash a b w1 w2 d Ha Hb Hla Hhb H1 H2 Hd) as Hs.
  destruct (a ++ w1 ++ d :: w2 ++ b) as [|c0 T] eqn:ET.
  { destruct a; [by vm_compute in Hta|done]. }
  assert (split_time_parts (c0 :: T) = [a; b]) as Hp.
  { unfold split_time_parts. rewrite Hs.
    rewrite bool_decide_eq_true_2 by (simpl; lia).
    cbn [List.filter]. by rewrite Hta, Htb. }
  unfold extract_start_end_times. rewrite Hp.
  rewrite bool_decide_eq_true_2 by (simpl; lia).
  change (py_index [a; b] 0) with (Ok a).
  change (py_index [a; b] 1) with (Ok b).
  unbind. rewrite Ea. unbind. by rewrite Eb.
Qed.

Lemma start_end_of_dashed_witness :
  extract_start_end_times (Some (text "Th 09:30AM" ++ [32; 32]%N ++
                                 8211%N :: [9]%N ++ text "12:15PM"))
  = Ok (Some 930%Z, Some 1215%Z).
Proof.
  destruct (start_end_of_dashed (text "Th 09:30AM") (text "12:15PM")
              [32; 32]%N [9]%N 8211%N) as (ta & tb & Ha & Hb & ->).
  - by apply (bool_decide_unpack _); vm_compute.
  - by apply (bool_decide_unpack _); vm_compute.
  - intros c [= <-]. by vm_compute.
  - intros c [= <-]. by vm_compute.
  - by repeat constructor.
  - by repeat constructor.
  - by vm_compute.
  - by vm_compute.
  - by vm_compute.
  - vm_compute in Ha, Hb. by simplify_eq.
Defined.

(** ** The cleaner *)

Lemma span_snd_head p (s : str) c :
  head (Re.span p s).2 = Some c → p c = false.
Proof.
  induction s as [|c' s IH]; simpl; [done|].
  destruct (p c') eqn:E.
  - destruct (Re.span p s). simpl in *. exact IH.
  - simpl. by intros [= <-].
Qed.

Lemma span_none p (s : str) :
  (∀ c, head s = Some c → p c = false) → Re.span p s = ([], s).
Proof.
  intros H. destruct s as [|c s]; [done|]. simpl. by rewrite (H c eq_refl).
Qed.

Lemma py_strip_trimmed (s : str) : trimmed (py_strip s).
Proof.
  unfold py_strip. set (t := (Re.span Char.is_space s).2).
  pose proof (span_snd_head Char.is_space s) as Ht. fold t in Ht.
  pose proof (span_snd_head Char.is_space (reverse t)) as Hv.
  destruct (span_suffix Char.is_space (reverse t)) as [a Ha].
  set (v := (Re.span Char.is_space (reverse t)).2) in *.
  split; intros c Hc.
  - apply Ht. apply (f_equal reverse) in Ha.
    rewrite reverse_involutive, reverse_app in Ha. rewrite Ha.
    destruct (reverse v); [done|]. exact Hc.
  - apply Hv. by rewrite <- last_reverse.
Qed.

Lemma py_strip_id (s : str) : trimmed s → py_strip s = s.
Proof.
  intros [Hh Hl]. unfold py_strip.
  rewrite (span_none _ s Hh). simpl.
  rewrite span_none; [apply reverse_involutive|].
  intros c Hc. apply Hl. by rewrite <- head_reverse.
Qed.

Lemma collapse_spaces_collapsed b (s : str) :
  collapsed b (Re.collapse_spaces b s) = true.
Proof.
  revert b. induction s as [|c s IH]; intros b; simpl; [done|].
  destruct (Char.is_space c) eqn:E.
  - destruct b; [apply IH|]. simpl.
    replace (Char.is_space 32) with true by by vm_compute.
    simpl. apply IH.
  - simpl. rewrite E. apply IH.
Qed.

Lemma collapse_spaces_id b (s : str) :
  collapsed b s = true → Re.collapse_spaces b s = s.
Proof.
  revert b. induction s as [|c s IH]; intros b; simpl; [done|].
  destruct (Char.is_space c) eqn:E.
  - intros [[Hc Hb%negb_true_iff]%andb_true_iff Hs]%andb_true_iff.
    apply N.eqb_eq in Hc. subst. by rewrite IH.
  - intros Hs. by rewrite IH.
Qed.

Lemma collapse_spaces_last b (s : str) :
  s ≠ [] → (∀ c, last s = Some c → Char.is_space c = false) →
  last (Re.collapse_spaces b s) = last s.
Proof.
  revert b. induction s as [|c s IH]; intros b Hne Hl; [done|].
  destruct s as [|c' s].
  - simpl. by rewrite (Hl c eq_refl).
  - rewrite last_cons_cons in *.
    assert (∀ b', last (Re.collapse_spaces b' (c' :: s)) = last (c' :: s))
      as IH' by (intros b'; by apply IH).
    assert (∀ y b', last (y :: Re.collapse_spaces b' (c' :: s))
                    = last (c' :: s)) as Hy.
    { intros y b'. rewrite last_cons, IH'.
      destruct (last (c' :: s)) eqn:El; [done|].
      by apply last_None in El. }
    change (Re.collapse_spaces b (c :: c' :: s))
      with (if Char.is_space c
            then (if b then Re.collapse_spaces true (c' :: s)
                  else 32%N :: Re.collapse_spaces true (c' :: s))
            else c :: Re.collapse_spaces false (c' :: s)).
    destruct (Char.is_space c); [destruct b|]; by rewrite ?Hy, ?IH'.
Qed.

Lemma collapse_spaces_trimmed (s : str) :
  trimmed s → trimmed (Re.collapse_spaces false s).
Proof.
  intros [Hh Hl]. destruct s as [|c s]; [done|].
  split.
  - simpl. rewrite (Hh c eq_refl). by intros x [= <-]; apply Hh.
  - intros x. rewrite collapse_spaces_last by done. apply Hl.
Qed.

(** X5. What [sanitize_period] returns has no blank at either end, no
    blank but the space, and no two spaces in a row; cleaning it again
    returns it unchanged. *)
Theorem sanitize_period_normal_form (x : cell) (s : str) :
  sanitize_period x = Ok s →
  trimmed s ∧ only_plain_spaces s ∧ collapsed false s = true ∧
  sanitize_period (Some s) = Ok s.
Proof.
  intros H.
  assert (trimmed s ∧ collapsed false s = true) as [Ht Hc].
  { destruct x as [[|c r]|]; simpl in H; injection H as <-; try done.
    split; [|apply collapse_spaces_collapsed].
    apply collapse_spaces_trimmed, py_strip_trimmed. }
  split; [done|]. split; [by eapply sanitize_period_plain|]. split; [done|].
  destruct s as [|c s]; [done|].
  unfold sanitize_period. rewrite py_strip_id by done.
  by rewrite collapse_spaces_id.
Qed.

Lemma sanitize_period_normal_form_witness :
  sanitize_period (Some (text "Th 09:30AM - 12:15PM"))
  = Ok (text "Th 09:30AM - 12:15PM").
Proof.
  apply (sanitize_period_normal_form
           (Some ([9; 32]%N ++ text "Th   09:30AM -  12:15PM" ++ [160; 10]%N))).
  by vm_compute.
Defined.

(** ** The token *)

Lemma word_not_separator c :
  Char.is_word c = true → is_sql_separator c = false.
Proof.
  intros Hw. unfold is_sql_separator.
  assert (Char.is_space c = false) as ->.
  { destruct (Char.is_space c) eqn:E; [|done].
    apply existsb_exists in E as (w & Hin & Heq).
    apply N.eqb_eq in Heq. subst w.
    simpl in Hin. repeat (destruct Hin as [<-|Hin]; [by vm_compute in Hw|]).
    done. }
  unfold Char.is_word, Char.is_ascii_alpha, Char.is_ascii_digit in Hw.
  destruct (N.eqb_spec c 46), (N.eqb_spec c 47), (N.eqb_spec c 45),
    (N.eqb_spec c 58); subst; try done; by vm_compute in Hw.
Qed.

Lemma underscore_and_strip_words (s : str) :
  Forall (λ c, Char.is_word c = true) s →
  underscore_and_strip is_sql_separator s = s.
Proof.
  induction 1 as [|c s Hc _ IH]; [done|]. simpl.
  by rewrite (word_not_separator c Hc), Hc, IH.
Qed.

(** X6. A token that [convert_to_sql_period] returns never starts with
    a digit, and, unless it is empty, it is its own token. *)
Theorem sql_token_is_identifier (x : cell) (tok : str) :
  convert_to_sql_period x = Ok (Some tok) →
  (∀ c, head tok = Some c → Char.is_ascii_digit c = false) ∧
  (tok ≠ [] → convert_to_sql_period (Some tok) = Ok (Some tok)).
Proof.
  rewrite convert_to_sql_period_derive. intros [= H].
  destruct x as [[|c0 s]|]; try done. unfold derive_token_with in H.
  pose proof (underscore_and_strip_word is_sql_separator (c0 :: s)) as Hw.
  assert ((∀ c, head tok = Some c → Char.is_ascii_digit c = false) ∧
          Forall (λ c, Char.is_word c = true) tok) as [Hd Hall].
  { destruct (underscore_and_strip _ _) as [|d t]; [by simplify_eq|].
    destruct (Char.is_ascii_digit d) eqn:E; simplify_eq.
    - split; [by intros c [= <-]|].
      change (text "p_" ++ d :: t) with (112%N :: 95%N :: d :: t).
      constructor; [done|]. by constructor.
    - split; [by intros c [= <-]|done]. }
  split; [done|]. intros Hne.
  rewrite convert_to_sql_period_derive. f_equal.
  destruct tok as [|c tok']; [done|].
  unfold derive_token_with. rewrite underscore_and_strip_words by done.
  by rewrite (Hd c eq_refl).
Qed.

Lemma sql_token_is_identifier_witness :
  convert_to_sql_period (Some (text "p_09_30_12_15"))
  = Ok (Some (text "p_09_30_12_15")).
Proof.
  apply (proj2 (sql_token_is_identifier (Some (text "09:30-12:15"))
                  (text "p_09_30_12_15") ltac:(by vm_compute))).
  done.
Defined.

(** X7. The column names [main] writes have the length of the names
    they come from and hold characters of [[A-Za-z0-9_]] only; a name is
    left as it is exactly when it holds such characters only, so that
    rewriting twice is rewriting once. *)
Theorem clean_column_name_spec (col : str) :
  length (clean_column_name col) = length col ∧
  Forall (λ c, Char.is_word c = true) (clean_column_name col) ∧
  (clean_column_name col = col ↔ Forall (λ c, Char.is_word c = true) col) ∧
  clean_column_name (clean_column_name col) = clean_column_name col.
Proof.
  assert (Forall (λ c, Char.is_word c = true) (clean_column_name col)) as Hw.
  { induction col as [|c col IH]; [constructor|].
    change (clean_column_name (c :: col))
      with ((if Char.is_word c then c else 95%N) :: clean_column_name col).
    constructor; [|done]. by destruct (Char.is_word c) eqn:E. }
  assert (∀ s, Forall (λ c, Char.is_word c = true) s → clean_column_name s = s)
    as Hid.
  { induction 1 as [|c s Hc _ IH]; [done|].
    change (clean_column_name (c :: s))
      with ((if Char.is_word c then c else 95%N) :: clean_column_name s).
    by rewrite Hc, IH. }
  split; [apply length_fmap|]. split; [done|]. split; [|by apply Hid].
  split; [|apply Hid]. intros <-. done.
Qed.

(** ** Shape and contents of the reconstructed table *)

Lemma wf_sample_late_value : wf_df late_value.
Proof. solve_wf. Qed.

Lemma rectangular_late_value : rectangular late_value.
Proof. solve_wf. Qed.

(** X8. On a table with distinct labels and one cell per column in
    every row, [fill_empty_class_codes] keeps the column labels, the
    number of rows and the width of every row. *)
Theorem fill_keeps_shape (class_code_col : option nat) (df : DataFrame) :
  wf_df df →
  columns (fill_empty_class_codes class_code_col df) = columns df ∧
  length (rows (fill_empty_class_codes class_code_col df)) = length (rows df) ∧
  wf_df (fill_empty_class_codes class_code_col df).
Proof.
  intros [Hnd Hwf]. unfold wf_df, rectangular in *.
  destruct class_code_col as [g|]; simpl.
  - split; [done|]. split; [apply fill_rows_length|].
    split; [done|]. by apply fill_rows_Forall_length.
  - destruct (ffill_columns_cols _ _ _ Hwf (le_n _)) as (H1 & H2 & _).
    done.
Qed.

Lemma fill_keeps_shape_witness :
  length (rows (fill_empty_class_codes None late_value)) = 3.
Proof.
  exact (proj1 (proj2 (fill_keeps_shape None late_value wf_sample_late_value))).
Defined.

Lemma fill_rows_first n g (r : row) (rest : list row) :
  fill_rows n g None (r :: rest) !! 0 = Some r.
Proof.
  change (Some (fill_step n g None r) = Some r). unfold fill_step.
  by destruct (isna_or_empty (r !!! g)).
Qed.

Lemma ffill_keeps (last : cell) (col : list cell) i (v : cell) :
  col !! i = Some v → isna_or_empty v = false →
  ffill last (replace_empty col) !! i = Some v.
Proof.
  revert last i. induction col as [|v0 col IH]; intros last i Hi Hv; [done|].
  rewrite replace_empty_cons. destruct i as [|i]; simpl in Hi.
  - injection Hi as ->. rewrite Hv. by destruct v.
  - destruct (isna_or_empty v0); [by apply IH|].
    destruct v0; by apply IH.
Qed.

(** X9. On a table with distinct labels and one cell per column in
    every row, [fill_empty_class_codes] writes to empty cells only: a
    cell that is not empty comes out as it was read, with a class code
    column and without one. *)
Theorem fill_keeps_values
    (class_code_col : option nat) (df : DataFrame) (i c : nat) (r : row) :
  wf_df df → rows df !! i = Some r → isna_or_empty (r !!! c) = false →
  ∃ r' : row,
    rows (fill_empty_class_codes class_code_col df) !! i = Some r' ∧
    r' !!! c = r !!! c.
Proof.
  intros [_ Hwf] Hi Hc. unfold rectangular in Hwf.
  destruct df as [cols rs]. simpl in *. set (n := length cols) in *.
  assert (length r = n) as Hlr.
  { rewrite Forall_forall in Hwf. apply Hwf. by eapply list_elem_of_lookup_2. }
  destruct class_code_col as [g|]; simpl; fold n.
  - destruct i as [|i].
    + destruct rs as [|r0 rest]; [done|]. injection Hi as ->.
      exists r. split; [apply fill_rows_first|done].
    + destruct (fill_rows_lookup_S n g None rs i r Hi) as (p & Hp & ->).
      eexists. split; [done|]. unfold fill_step.
      destruct (isna_or_empty (r !!! g)) eqn:E; [|done].
      assert (length p = n) as Hlp.
      { assert (prev_fits n None) as Hnone by by intros ?.
        pose proof (fill_rows_Forall_length n g None rs Hnone Hwf) as Hall.
        rewrite Forall_forall in Hall. apply Hall.
        by eapply list_elem_of_lookup_2. }
      rewrite fill_from_merge by done.
      rewrite merge_rows_lookup_total by lia. by rewrite Hc.
  - destruct (ffill_columns_cols n n rs Hwf (le_n _)) as (H1 & H2 & H3).
    assert (c < n) as Hcn.
    { destruct (decide (c < n)); [done|].
      rewrite list_lookup_total_alt, lookup_ge_None_2 in Hc by lia. done. }
    destruct (lookup_lt_is_Some_2 (ffill_columns n rs) i) as [r' Hr'].
    { rewrite H2. by eapply lookup_lt_Some. }
    exists r'. split; [done|].
    specialize (H3 c). destruct (decide (c < n)); [|lia].
    apply (f_equal (λ l, l !! i)) in H3.
    unfold get_col at 1 in H3. rewrite list_lookup_fmap, Hr' in H3.
    unfold ffill_column in H3.
    rewrite (ffill_keeps None (get_col c rs) i (r !!! c)) in H3; [|..|done].
    + simpl in H3. by injection H3.
    + unfold get_col. by rewrite list_lookup_fmap, Hi.
Qed.

Lemma fill_keeps_values_witness :
  ∃ r' : row,
    rows (fill_empty_class_codes (Some 0) late_value) !! 1 = Some r' ∧
    r' !!! 1 = Some (text "1").
Proof.
  apply (fill_keeps_values (Some 0) late_value 1 1 [Some []; Some (text "1")]
           wf_sample_late_value eq_refl eq_refl).
Defined.

Lemma last_default_cons (l v : cell) (F : list cell) :
  default l (last (v :: F)) = default v (last F).
Proof. rewrite last_cons. by destruct (last F). Qed.

Lemma ffill_nearest (l : cell) (col : list cell) i :
  i < length col →
  ffill l (replace_empty col) !! i
  = Some (default l (last (List.filter (λ v : cell, negb (isna_or_empty v))
                             (take (S i) col)))).
Proof.
  revert l i. induction col as [|v col IH]; intros l i Hi; simpl in Hi; [lia|].
  rewrite replace_empty_cons.
  change (take (S i) (v :: col)) with (v :: take i col).
  cbn [List.filter]. destruct (isna_or_empty v) eqn:Ev; cbn [negb].
  - cbn [ffill]. destruct i as [|i]; [done|]. simpl. apply IH. lia.
  - destruct v as [w|]; [|done]. cbn [ffill]. destruct i as [|i]; [done|].
    simpl. rewrite IH by lia. f_equal. symmetry. apply last_default_cons.
Qed.

Lemma last_valid_clean (col : list cell) :
  last_valid col = None ∨ isna_or_empty (last_valid col) = false.
Proof.
  unfold last_valid.
  destruct (last (List.filter _ col)) as [v|] eqn:E; [|by left].
  right. simpl. apply last_Some_elem_of, list_elem_of_In, filter_In in E.
  destruct E as [_ E]. by apply negb_true_iff.
Qed.

(** X10. Without a class code column, every cell comes out as the
    nearest cell at or above it in its column that was not empty, and
    as the missing value when there is none: no empty text is left. *)
Theorem ffill_takes_nearest_above (df : DataFrame) (i c : nat) (r' : row) :
  rectangular df → c < length (columns df) →
  rows (fill_empty_class_codes None df) !! i = Some r' →
  r' !!! c = last_valid (take (S i) (get_col c (rows df))) ∧
  (r' !!! c = None ∨ isna_or_empty (r' !!! c) = false).
Proof.
  intros Hwf Hc Hi. unfold rectangular in Hwf. destruct df as [cols rs].
  simpl in *. set (n := length cols) in *.
  destruct (ffill_columns_cols n n rs Hwf (le_n _)) as (H1 & H2 & H3).
  assert (r' !!! c = last_valid (take (S i) (get_col c rs))) as ->.
  { specialize (H3 c). destruct (decide (c < n)); [|lia].
    apply (f_equal (λ l, l !! i)) in H3.
    unfold get_col at 1 in H3. rewrite list_lookup_fmap, Hi in H3.
    unfold ffill_column in H3. rewrite ffill_nearest in H3.
    - simpl in H3. by injection H3.
    - rewrite get_col_length, <- H2. by eapply lookup_lt_Some. }
  split; [done|]. apply last_valid_clean.
Qed.

Lemma ffill_takes_nearest_above_witness :
  ∃ r' : row,
    rows (fill_empty_class_codes None late_value) !! 2 = Some r' ∧
    r' !!! 1 = Some (text "1").
Proof.
  exists [Some (text "A"); Some (text "1")]. split; [done|].
  apply (ffill_takes_nearest_above late_value 2 1 _ rectangular_late_value).
  - simpl. lia.
  - done.
Defined.

Lemma last_coded_row_found g (before : list row) (r0 : row) :
  r0 ∈ before → isna_or_empty (r0 !!! g) = false →
  ∃ src : row, last_coded_row g before = Some src ∧
               isna_or_empty (src !!! g) = false.
Proof.
  intros Hin Hr0. unfold last_coded_row.
  destruct (last (List.filter _ before)) as [src|] eqn:E.
  - exists src. split; [done|].
    apply last_Some_elem_of, list_elem_of_In, filter_In in E as [_ E].
    by apply negb_true_iff.
  - apply last_None in E.
    assert (In r0 (List.filter (λ r : row, negb (isna_or_empty (r !!! g)))
                     before)) as Hf.
    { apply filter_In. split; [by apply list_elem_of_In|]. by rewrite Hr0. }
    rewrite E in Hf. done.
Qed.

(** X11. On a table with distinct labels and one cell per column in
    every row, with a class code column: once a row has come with a
    class code, that row and every row after it has a class code in the
    output. *)
Theorem codes_filled_after_first
    (g : nat) (df : DataFrame) (j i : nat) (r0 r' : row) :
  wf_df df →
  rows df !! j = Some r0 → isna_or_empty (r0 !!! g) = false → j ≤ i →
  rows (fill_empty_class_codes (Some g) df) !! i = Some r' →
  isna_or_empty (r' !!! g) = false.
Proof.
  intros [_ Hwf] Hj Hr0 Hji Hi. unfold rectangular in Hwf.
  destruct df as [cols rs].
  simpl in *. set (n := length cols) in *.
  destruct (lookup_lt_is_Some_2 rs i) as [r Hr].
  { rewrite <- (fill_rows_length n g None rs). by eapply lookup_lt_Some. }
  destruct (isna_or_empty (r !!! g)) eqn:E.
  - assert (j < i) as Hlt.
    { destruct (decide (j = i)) as [->|]; [|lia]. congruence. }
    destruct (last_coded_row_found g (take i rs) r0) as (src & Hs & Hsrc).
    { apply list_elem_of_lookup. exists j. by rewrite lookup_take_lt. }
    { done. }
    destruct (fill_rows_code n g [] None rs i r src) as (out_r & Ho & Hg);
      try done.
    rewrite Hi in Ho. injection Ho as <-. by rewrite Hg.
  - destruct (fill_rows_lookup n g None rs i r Hr) as [prev Hp].
    rewrite Hi in Hp. injection Hp as ->. unfold fill_step. by rewrite E.
Qed.

Lemma codes_filled_after_first_witness :
  isna_or_empty ([Some (text "A"); Some (text "1")] !!! 0) = false.
Proof.
  apply (codes_filled_after_first 0 late_value 0 2
           [Some (text "A"); Some []] [Some (text "A"); Some (text "1")]
           wf_sample_late_value eq_refl eq_refl (Nat.le_0_l 2) eq_refl).
Defined.

(** ** Finding the columns *)

Lemma contains_unfold (t p : str) :
  contains t p
  = startswith t p || match t with [] => false | _ :: t' => contains t' p end.
Proof. by destruct t. Qed.

Lemma contains_spec (t p : str) :
  contains t p = true ↔ ∃ a b, t = a ++ p ++ b.
Proof.
  split.
  - induction t as [|c t IH]; rewrite contains_unfold;
      intros [H|H]%orb_true_iff; try done.
    + unfold startswith, str_eqb in H. apply bool_decide_eq_true in H.
      exists [], (drop (length p) []). simpl. by rewrite <- H at 1; rewrite take_drop.
    + unfold startswith, str_eqb in H. apply bool_decide_eq_true in H.
      exists [], (drop (length p) (c :: t)). simpl.
      rewrite <- H at 1. by rewrite take_drop.
    + destruct (IH H) as (a & b & ->). by exists (c :: a), b.
  - intros (a & b & ->). induction a as [|c a IH].
    + rewrite contains_unfold. apply orb_true_iff. left.
      unfold startswith, str_eqb. apply bool_decide_eq_true. simpl.
      by rewrite take_app_length.
    + rewrite contains_unfold. apply orb_true_iff. right. exact IH.
Qed.

Lemma contains_trans (t n p : str) :
  contains t n = true → contains n p = true → contains t p = true.
Proof.
  rewrite !contains_spec. intros (a & b & ->) (a' & b' & ->).
  exists (a ++ a'), (b' ++ b). by rewrite <- !app_assoc.
Qed.

Lemma any_name_is_code (low : str) :
  existsb (contains low) potential_names = contains low (text "code").
Proof.
  destruct (contains low (text "code")) eqn:E.
  - apply existsb_exists. exists (text "code"). split; [|done].
    unfold potential_names. simpl. tauto.
  - destruct (existsb _ potential_names) eqn:F; [|done].
    apply existsb_exists in F as (name & Hin & Hc).
    assert (contains name (text "code") = true) as Hn.
    { assert (forallb (λ name, contains name (text "code")) potential_names
              = true) as Hall by by vm_compute.
      rewrite forallb_forall in Hall. by apply Hall. }
    by rewrite (contains_trans _ _ _ Hc Hn) in E.
Qed.

Lemma first_matching_ext lower (test1 test2 : str → bool) pos cols :
  (∀ low, test1 low = test2 low) →
  first_matching lower test1 pos cols = first_matching lower test2 pos cols.
Proof.
  intros H. revert pos. induction cols as [|[s|n] cols IH]; intros pos;
    simpl; try done.
  rewrite H. destruct (test2 (lower s)); [done|apply IH].
Qed.

(** X12. The search for the class code column stops at the first label
    whose lower-case form holds "code": the five other names of
    [potential_names] add nothing, each of them holding "code". *)
Theorem class_code_search_is_code (lower : list N → list N) :
  (∀ low : str,
     existsb (contains low) potential_names = contains low (text "code")) ∧
  (∀ cols : list label,
     find_class_code_col lower cols
     = first_matching lower (λ low, contains low (text "code")) 0 cols).
Proof.
  split; [apply any_name_is_code|].
  intros cols. apply first_matching_ext, any_name_is_code.
Qed.

Lemma first_matching_raises lower test pos cols e :
  first_matching lower test pos cols = Raises e ↔
  e = AttributeError ∧
  ∃ pre n rest, cols = pre ++ LInt n :: rest ∧
                Forall (passed_over lower test) pre.
Proof.
  revert pos. induction cols as [|[s|n] cols IH]; intros pos; simpl.
  - split; [done|]. intros (_ & pre & n & rest & H & _). by destruct pre.
  - destruct (test (lower s)) eqn:E.
    + split; [done|]. intros (_ & pre & n & rest & H & Hp).
      destruct pre as [|l pre]; [done|]. injection H as <- _.
      apply Forall_cons in Hp as [(s' & [= <-] & Hs) _]. congruence.
    + rewrite IH. split.
      * intros (-> & pre & n & rest & -> & Hp). split; [done|].
        exists (LStr s :: pre), n, rest. split; [done|].
        constructor; [by exists s|done].
      * intros (-> & pre & n & rest & H & Hp). split; [done|].
        destruct pre as [|l pre]; [done|]. injection H as <- ->.
        apply Forall_cons in Hp as [_ Hp]. by exists pre, n, rest.
  - split.
    + intros [= <-]. split; [done|]. by exists [], n, cols.
    + intros (-> & _). done.
Qed.

(** X13. The searches for the class code column and for the period
    column raise [AttributeError] exactly when an integer label comes
    before any label that matches; so they do on every table whose
    columns are numbered, unless it has no column at all. *)
Theorem column_search_raises
    (lower : list N → list N) (cols : list label) (e : lookup_exn) :
  (find_class_code_col lower cols = Raises e ↔
   e = AttributeError ∧
   ∃ pre n rest,
     cols = pre ++ LInt n :: rest ∧
     Forall (passed_over lower
               (λ low, existsb (contains low) potential_names)) pre) ∧
  (find_period_col lower cols = Raises e ↔
   e = AttributeError ∧
   ∃ pre n rest,
     cols = pre ++ LInt n :: rest ∧
     Forall (passed_over lower (λ low, contains low (text "period"))) pre).
Proof. split; apply first_matching_raises. Qed.

Lemma first_matching_returns lower test pos cols r :
  first_matching lower test pos cols = Returns r →
  match r with
  | None => Forall (passed_over lower test) cols
  | Some k =>
      pos ≤ k ∧ Forall (passed_over lower test) (take (k - pos) cols) ∧
      ∃ s, cols !! (k - pos) = Some (LStr s) ∧ test (lower s) = true
  end.
Proof.
  revert pos. induction cols as [|[s|n] cols IH]; intros pos; simpl.
  - intros [= <-]. constructor.
  - destruct (test (lower s)) eqn:E.
    + intros [= <-]. split; [done|]. rewrite Nat.sub_diag. simpl.
      split; [constructor|]. by exists s.
    + intros H%IH. destruct r as [k|].
      * destruct H as (Hk & Hp & s' & Hs & Ht).
        split; [lia|].
        replace (k - pos) with (S (k - S pos)) by lia. simpl.
        split; [constructor; [by exists s|done]|]. by exists s'.
      * constructor; [by exists s|done].
  - done.
Qed.

(** X14. The class code column that [fill_empty_class_codes] goes on
    with is always one of the columns, and its label is a string that
    is not empty.  When a label matches by name the user is not asked;
    when none matches, an answer that is no number, or a number below 0
    or not below the number of columns, gives no class code column. *)
Theorem resolved_column_in_range
    (lower : list N → list N) (cols : list label) :
  (∀ (ans : answer) (k : nat),
     resolve_class_code_col lower ans cols = Returns (Some k) →
     ∃ (c : N) (s : str), cols !! k = Some (LStr (c :: s))) ∧
  (∀ (ans ans' : answer) (k : nat),
     find_class_code_col lower cols = Returns (Some k) →
     resolve_class_code_col lower ans cols
     = resolve_class_code_col lower ans' cols) ∧
  (∀ ans : answer,
     find_class_code_col lower cols = Returns None →
     match ans with
     | Number z => (z < 0 ∨ Z.of_nat (length cols) ≤ z)%Z
     | NotANumber => True
     | NoInput => False
     end →
     resolve_class_code_col lower ans cols = Returns None).
Proof.
  split; [|split].
  - intros ans k. unfold resolve_class_code_col.
    destruct (find_class_code_col lower cols) as [found|] eqn:F; [|done].
    apply first_matching_returns in F.
    assert (∀ k' n, cols !! k' = Some (LInt n) → found = None → False)
      as Hno_int.
    { intros k' n Hn ->. rewrite Forall_forall in F.
      apply list_elem_of_lookup_2, F in Hn as (s & Hs & _). done. }
    destruct found as [k0|].
    + destruct F as (_ & _ & s & Hs & _). rewrite Nat.sub_0_r in Hs.
      rewrite Hs. destruct s as [|c s]; simpl; [done|].
      intros [= <-]. by exists c, s.
    + assert (∀ k', (match cols !! k' with
                     | Some l => if truthy l then Returns (Some k')
                                 else Returns None
                     | None => Returns None
                     end = Returns (Some k)) →
                    ∃ c s, cols !! k = Some (LStr (c :: s))) as Hfin.
      { intros k' H.
        destruct (cols !! k') as [[[|c s]|n]|] eqn:E; simpl in H; try done.
        - injection H as <-. by exists c, s.
        - exfalso. by apply (Hno_int k' n). }
      case_bool_decide; [|done].
      destruct ans as [z| |]; try done.
      case_bool_decide; [|done]. apply Hfin.
  - intros ans ans' k F. unfold resolve_class_code_col. by rewrite F.
  - intros ans F Hans. unfold resolve_class_code_col. rewrite F.
    case_bool_decide; [|done].
    destruct ans as [z| |]; try done.
    rewrite bool_decide_eq_false_2 by lia. done.
Qed.

Lemma resolved_column_in_range_witness :
  ∃ (c : N) (s : str),
    [LStr (text "Title"); LStr (text "Room")] !! 1 = Some (LStr (c :: s)).
Proof.
  apply (proj1 (resolved_column_in_range py_lower
                  [LStr (text "Title"); LStr (text "Room")]) (Number 1) 1).
  by vm_compute.
Defined.
